(** * SphereOLED: the blink/button event dispatcher of [main.c]

    A shallow embedding of [SphereOLED/SphereOLED/main.c]: the file-scope
    variables become a record, every function of the file becomes a
    computation in a small monad that threads that record and collects the
    calls made to the platform (applibs, the epoll/timerfd helpers and the
    display library) as a list of events.  The values those calls return
    are not chosen by the program; they are supplied by the caller of the
    model, one record per handler invocation, per initialisation and per
    teardown. *)

From Stdlib Require Import ZArith List String Bool Lia.
Import ListNotations.
Local Open Scope string_scope.
Local Open Scope list_scope.
Local Open Scope Z_scope.

(** ** Data *)

(** [GPIO_Value_Type] of applibs/gpio.h: the two levels of a digital line. *)
Inductive GPIO_Value_Type : Type :=
  | GPIO_Value_Low
  | GPIO_Value_High.

Definition GPIO_Value_eqb (a b : GPIO_Value_Type) : bool :=
  match a, b with
  | GPIO_Value_Low, GPIO_Value_Low => true
  | GPIO_Value_High, GPIO_Value_High => true
  | _, _ => false
  end.

(** [struct timespec]. *)
Record timespec : Type := mk_timespec { tv_sec : Z; tv_nsec : Z }.

(** The two [EventData] objects of the file; each carries one handler. *)
Inductive EventData : Type :=
  | buttonEventData
  | blinkingLedTimerEventData.

(** Board identifiers of mt3620_rdb.h, kept symbolic. *)
Inductive Peripheral : Type :=
  | MT3620_RDB_BUTTON_A
  | MT3620_GPIO0
  | MT3620_I2C_ISU2.

(** Scroll constants of OLEDlib.h, kept symbolic. *)
Inductive ScrollDirection : Type := SCROLL_VERTICAL_LEFT.
Inductive ScrollSpeed : Type := SCROLL_PER_25_FRAMES.
Inductive BusSpeed : Type := I2C_BUS_SPEED_HIGH.

(** Constants of applibs/gpio.h, sys/epoll.h and signal.h, kept symbolic. *)
Inductive GPIO_OutputMode_Type : Type := GPIO_OutputMode_PushPull.
Inductive EpollEvents : Type := EPOLLIN.
Inductive Signal : Type := SIGTERM.

(** The calls into the display library, with their arguments. *)
Inductive OLED_Call : Type :=
  | OLED_Init (fd : Z) (flag : bool)
  | OLED_ClearDisplay
  | OLED_SetTextPos (row col : Z)
  | OLED_PutString (s : string)
  | OLED_ClearPos (a b c : Z)
  | OLED_SetVerticalScrollProperties (d : ScrollDirection) (first last : Z)
      (sp : ScrollSpeed) (offset : Z)
  | OLED_ActivateScroll
  | OLED_SetInverseDisplay
  | OLED_SetNormalDisplay.

(** The calls that hand out a descriptor. *)
Inductive OpenCall : Type :=
  | CreateEpollFd_call
  | GPIO_OpenAsInput_call (p : Peripheral)
  | CreateTimerFdAndAddToEpoll_call (epfd : Z) (period : timespec) (ed : EventData)
      (events : EpollEvents)
  | GPIO_OpenAsOutput_call (p : Peripheral) (mode : GPIO_OutputMode_Type)
      (initial : GPIO_Value_Type)
  | I2CMaster_Open_call (p : Peripheral).

(** What the program does to the outside world, in the order it does it.
    [res] is the value the call returned. *)
Inductive Event : Type :=
  | EvLog_Debug (fmt : string)
  | EvSigaction (s : Signal)
  | EvOpen (c : OpenCall) (res : Z)
  | EvConsumeTimerFdEvent (fd : Z) (res : Z)
  | EvGPIO_GetValue (fd : Z) (res : Z) (v : GPIO_Value_Type)
  | EvGPIO_SetValue (fd : Z) (v : GPIO_Value_Type) (res : Z)
  | EvSetTimerFdToPeriod (fd : Z) (period : timespec) (res : Z)
  | EvI2CMaster_SetBusSpeed (fd : Z) (sp : BusSpeed)
  | EvOLED (c : OLED_Call)
  | EvNanosleep (t : timespec)
  | EvWait (epfd : Z) (res : Z)
  | EvClose (fd : Z) (res : Z).

(** The file-scope variables of main.c. *)
Record Globals : Type := mk_Globals {
  ledBlinkRateButtonGpioFd : Z;
  buttonPollTimerFd : Z;
  blinkingLedGpioFd : Z;
  blinkingLedTimerFd : Z;
  i2cFd : Z;
  epollFd : Z;
  buttonState : GPIO_Value_Type;
  ledState : GPIO_Value_Type;
  blinkIntervalIndex : Z;
  terminationRequired : bool
}.

(** Their initialisers (lines 29-46). *)
Definition initial_globals : Globals :=
  {| ledBlinkRateButtonGpioFd := -1;
     buttonPollTimerFd := -1;
     blinkingLedGpioFd := -1;
     blinkingLedTimerFd := -1;
     i2cFd := -1;
     epollFd := -1;
     buttonState := GPIO_Value_High;
     ledState := GPIO_Value_High;
     blinkIntervalIndex := 0;
     terminationRequired := false |}.

Definition numBlinkIntervals : Z := 3.

Definition blinkIntervals : list timespec :=
  [ mk_timespec 0 125000000; mk_timespec 0 250000000; mk_timespec 0 500000000 ].

(** [blinkIntervals[i]].  The source indexes the array only with the value
    of [blinkIntervalIndex], which stays inside the table (see
    [index_in_table]); outside the table the C expression has no defined
    value and the model returns a zero period. *)
Definition blinkIntervals_at (i : Z) : timespec :=
  nth (Z.to_nat i) blinkIntervals (mk_timespec 0 0).

(** ** The monad: file-scope state and the log of calls *)

Definition M (A : Type) : Type := Globals -> A * Globals * list Event.

Definition ret {A} (a : A) : M A := fun g => (a, g, []).

Definition bind {A B} (m : M A) (f : A -> M B) : M B :=
  fun g =>
    let '(a, g1, e1) := m g in
    let '(b, g2, e2) := f a g1 in
    (b, g2, e1 ++ e2).

Notation "x <- m ;; k" := (bind m (fun x => k))
  (at level 61, m at next level, right associativity).
Notation "m ;; k" := (bind m (fun _ => k))
  (at level 61, right associativity).

Definition emit (e : Event) : M unit := fun g => (tt, g, [e]).
Definition gets {A} (f : Globals -> A) : M A := fun g => (f g, g, []).
Definition modify (f : Globals -> Globals) : M unit := fun g => (tt, f g, []).

Definition result_of {A} (r : A * Globals * list Event) : A := fst (fst r).
Definition globals_of {A} (r : A * Globals * list Event) : Globals := snd (fst r).
Definition events_of {A} (r : A * Globals * list Event) : list Event := snd r.

(** Assignments to the file-scope variables. *)
Definition with_ledBlinkRateButtonGpioFd (v : Z) (g : Globals) : Globals :=
  mk_Globals v (buttonPollTimerFd g) (blinkingLedGpioFd g)
    (blinkingLedTimerFd g) (i2cFd g) (epollFd g) (buttonState g) (ledState g)
    (blinkIntervalIndex g) (terminationRequired g).
Definition set_ledBlinkRateButtonGpioFd (v : Z) : M unit := modify (with_ledBlinkRateButtonGpioFd v).
Definition with_buttonPollTimerFd (v : Z) (g : Globals) : Globals :=
  mk_Globals (ledBlinkRateButtonGpioFd g) v (blinkingLedGpioFd g)
    (blinkingLedTimerFd g) (i2cFd g) (epollFd g) (buttonState g) (ledState g)
    (blinkIntervalIndex g) (terminationRequired g).
Definition set_buttonPollTimerFd (v : Z) : M unit := modify (with_buttonPollTimerFd v).
Definition with_blinkingLedGpioFd (v : Z) (g : Globals) : Globals :=
  mk_Globals (ledBlinkRateButtonGpioFd g) (buttonPollTimerFd g) v
    (blinkingLedTimerFd g) (i2cFd g) (epollFd g) (buttonState g) (ledState g)
    (blinkIntervalIndex g) (terminationRequired g).
Definition set_blinkingLedGpioFd (v : Z) : M unit := modify (with_blinkingLedGpioFd v).
Definition with_blinkingLedTimerFd (v : Z) (g : Globals) : Globals :=
  mk_Globals (ledBlinkRateButtonGpioFd g) (buttonPollTimerFd g)
    (blinkingLedGpioFd g) v (i2cFd g) (epollFd g) (buttonState g) (ledState g)
    (blinkIntervalIndex g) (terminationRequired g).
Definition set_blinkingLedTimerFd (v : Z) : M unit := modify (with_blinkingLedTimerFd v).
Definition with_i2cFd (v : Z) (g : Globals) : Globals :=
  mk_Globals (ledBlinkRateButtonGpioFd g) (buttonPollTimerFd g)
    (blinkingLedGpioFd g) (blinkingLedTimerFd g) v (epollFd g) (buttonState g)
    (ledState g) (blinkIntervalIndex g) (terminationRequired g).
Definition set_i2cFd (v : Z) : M unit := modify (with_i2cFd v).
Definition with_epollFd (v : Z) (g : Globals) : Globals :=
  mk_Globals (ledBlinkRateButtonGpioFd g) (buttonPollTimerFd g)
    (blinkingLedGpioFd g) (blinkingLedTimerFd g) (i2cFd g) v (buttonState g)
    (ledState g) (blinkIntervalIndex g) (terminationRequired g).
Definition set_epollFd (v : Z) : M unit := modify (with_epollFd v).
Definition with_buttonState (v : GPIO_Value_Type) (g : Globals) : Globals :=
  mk_Globals (ledBlinkRateButtonGpioFd g) (buttonPollTimerFd g)
    (blinkingLedGpioFd g) (blinkingLedTimerFd g) (i2cFd g) (epollFd g) v
    (ledState g) (blinkIntervalIndex g) (terminationRequired g).
Definition set_buttonState (v : GPIO_Value_Type) : M unit := modify (with_buttonState v).
Definition with_ledState (v : GPIO_Value_Type) (g : Globals) : Globals :=
  mk_Globals (ledBlinkRateButtonGpioFd g) (buttonPollTimerFd g)
    (blinkingLedGpioFd g) (blinkingLedTimerFd g) (i2cFd g) (epollFd g)
    (buttonState g) v (blinkIntervalIndex g) (terminationRequired g).
Definition set_ledState (v : GPIO_Value_Type) : M unit := modify (with_ledState v).
Definition with_blinkIntervalIndex (v : Z) (g : Globals) : Globals :=
  mk_Globals (ledBlinkRateButtonGpioFd g) (buttonPollTimerFd g)
    (blinkingLedGpioFd g) (blinkingLedTimerFd g) (i2cFd g) (epollFd g)
    (buttonState g) (ledState g) v (terminationRequired g).
Definition set_blinkIntervalIndex (v : Z) : M unit := modify (with_blinkIntervalIndex v).
Definition with_terminationRequired (v : bool) (g : Globals) : Globals :=
  mk_Globals (ledBlinkRateButtonGpioFd g) (buttonPollTimerFd g)
    (blinkingLedGpioFd g) (blinkingLedTimerFd g) (i2cFd g) (epollFd g)
    (buttonState g) (ledState g) (blinkIntervalIndex g) v.
Definition set_terminationRequired (v : bool) : M unit := modify (with_terminationRequired v).

(** ** Platform calls

    Each call is logged with the value it returned; that value is an
    argument of the model ([res]), since the platform decides it. *)

Definition Log_Debug (fmt : string) : M unit := emit (EvLog_Debug fmt).

Definition open_call (c : OpenCall) (res : Z) : M Z :=
  emit (EvOpen c res) ;; ret res.

Definition ConsumeTimerFdEvent (fd res : Z) : M Z :=
  emit (EvConsumeTimerFdEvent fd res) ;; ret res.

Definition GPIO_GetValue (fd res : Z) (v : GPIO_Value_Type) : M (Z * GPIO_Value_Type) :=
  emit (EvGPIO_GetValue fd res v) ;; ret (res, v).

Definition GPIO_SetValue (fd : Z) (v : GPIO_Value_Type) (res : Z) : M Z :=
  emit (EvGPIO_SetValue fd v res) ;; ret res.

Definition SetTimerFdToPeriod (fd : Z) (period : timespec) (res : Z) : M Z :=
  emit (EvSetTimerFdToPeriod fd period res) ;; ret res.

Definition OLED (c : OLED_Call) : M unit := emit (EvOLED c).

Definition close (fd res : Z) : M Z := emit (EvClose fd res) ;; ret res.

(** Modelled from the spec: [CloseFdAndPrintError] is declared in
    epoll_timerfd_utilities.h and its body is not part of main.c.  The
    spec has teardown close only the resources that were opened and log,
    without propagating, a close that fails: a descriptor that is still
    negative is left alone, an open one is closed once, and a failing
    close is reported through [Log_Debug]. *)
Definition CloseFdAndPrintError (fd : Z) (fdName : string) (res : Z) : M unit :=
  if 0 <=? fd then
    r <- close fd res ;;
    if negb (r =? 0) then
      Log_Debug "ERROR: Could not close fd %s: %s (%d).\n"
    else ret tt
  else ret tt.

(** ** Handlers *)

(** [TerminationHandler] (lines 51-55). *)
Definition TerminationHandler : M unit := set_terminationRequired true.

(** The values the platform returns during one firing of the blink timer. *)
Record BlinkFiring : Type := mk_BlinkFiring {
  blink_consume : Z;      (* ConsumeTimerFdEvent *)
  blink_write : Z         (* GPIO_SetValue *)
}.

(** [BlinkingLedTimerEventHandler] (lines 60-75). *)
Definition BlinkingLedTimerEventHandler (r : BlinkFiring) : M unit :=
  tfd <- gets blinkingLedTimerFd ;;
  c <- ConsumeTimerFdEvent tfd (blink_consume r) ;;
  if negb (c =? 0) then
    set_terminationRequired true
  else
    old <- gets ledState ;;
    set_ledState (if GPIO_Value_eqb old GPIO_Value_Low
                  then GPIO_Value_High else GPIO_Value_Low) ;;
    gfd <- gets blinkingLedGpioFd ;;
    new <- gets ledState ;;
    result <- GPIO_SetValue gfd new (blink_write r) ;;
    if negb (result =? 0) then
      Log_Debug "ERROR: Could not set LED output value: %s (%d).\n" ;;
      set_terminationRequired true
    else ret tt.

(** The values the platform returns during one firing of the poll timer. *)
Record ButtonFiring : Type := mk_ButtonFiring {
  poll_consume : Z;               (* ConsumeTimerFdEvent *)
  poll_read : Z;                  (* GPIO_GetValue, return value *)
  poll_level : GPIO_Value_Type;   (* GPIO_GetValue, level stored through the pointer *)
  poll_rearm : Z                  (* SetTimerFdToPeriod *)
}.

(** [ButtonTimerEventHandler] (lines 80-122). *)
Definition ButtonTimerEventHandler (r : ButtonFiring) : M unit :=
  pfd <- gets buttonPollTimerFd ;;
  c <- ConsumeTimerFdEvent pfd (poll_consume r) ;;
  if negb (c =? 0) then
    set_terminationRequired true
  else
    bfd <- gets ledBlinkRateButtonGpioFd ;;
    rd <- GPIO_GetValue bfd (poll_read r) (poll_level r) ;;
    let '(result, newButtonState) := rd in
    if negb (result =? 0) then
      Log_Debug "ERROR: Could not read button GPIO: %s (%d).\n" ;;
      set_terminationRequired true
    else
      old <- gets buttonState ;;
      if negb (GPIO_Value_eqb newButtonState old) then
        (if GPIO_Value_eqb newButtonState GPIO_Value_Low then
           OLED OLED_ClearDisplay ;;
           OLED (OLED_SetTextPos 1 1) ;;
           OLED (OLED_PutString "Hello World!") ;;
           OLED (OLED_SetTextPos 2 2) ;;
           OLED (OLED_PutString "Hello World!") ;;
           OLED (OLED_SetTextPos 3 3) ;;
           OLED (OLED_PutString "Hello World!") ;;
           OLED (OLED_SetTextPos 4 4) ;;
           OLED (OLED_PutString "Hello World!") ;;
           OLED (OLED_ClearPos 7 3 5) ;;
           OLED (OLED_SetVerticalScrollProperties SCROLL_VERTICAL_LEFT 3 6
                   SCROLL_PER_25_FRAMES 1) ;;
           OLED OLED_ActivateScroll ;;
           i <- gets blinkIntervalIndex ;;
           set_blinkIntervalIndex (Z.rem (i + 1) numBlinkIntervals) ;;
           tfd <- gets blinkingLedTimerFd ;;
           i' <- gets blinkIntervalIndex ;;
           s <- SetTimerFdToPeriod tfd (blinkIntervals_at i') (poll_rearm r) ;;
           if negb (s =? 0) then set_terminationRequired true else ret tt
         else ret tt) ;;
        set_buttonState newButtonState
      else ret tt.

(** The handler stored in each [EventData] (lines 125-126), applied to the
    values the platform returns while it runs. *)
Inductive Ready : Type :=
  | Ready_button (r : ButtonFiring)
  | Ready_blink (r : BlinkFiring).

Definition eventHandler (x : Ready) : M unit :=
  match x with
  | Ready_button r => ButtonTimerEventHandler r
  | Ready_blink r => BlinkingLedTimerEventHandler r
  end.

(** Handlers run to completion, one after the other. *)
Fixpoint call_handlers (l : list Ready) : M unit :=
  match l with
  | [] => ret tt
  | x :: rest => eventHandler x ;; call_handlers rest
  end.

(** ** Initialisation *)

(** The values the platform returns during initialisation.  A field is
    consulted only if the call is reached. *)
Record InitEnv : Type := mk_InitEnv {
  init_sigterm : bool;            (* SIGTERM delivered while initialising *)
  init_epoll : Z;                 (* CreateEpollFd *)
  init_buttonGpio : Z;            (* GPIO_OpenAsInput *)
  init_buttonTimer : Z;           (* CreateTimerFdAndAddToEpoll, poll timer *)
  init_ledGpio : Z;               (* GPIO_OpenAsOutput *)
  init_ledTimer : Z;              (* CreateTimerFdAndAddToEpoll, blink timer *)
  init_i2c : Z                    (* I2CMaster_Open *)
}.

(** [InitPeripheralsAndHandlers] (lines 132-188).  Once the handler is
    installed a SIGTERM may run it at any point; it only sets the flag,
    which initialisation never reads, so the model runs it right after
    [sigaction].  The source tests the value returned by the six calls
    that hand out a descriptor and by no other call: what [sigaction],
    [I2CMaster_SetBusSpeed], the display calls and [nanosleep] return is
    discarded, so these calls are logged without a result. *)
Definition InitPeripheralsAndHandlers (env : InitEnv) : M Z :=
  emit (EvSigaction SIGTERM) ;;
  (if init_sigterm env then TerminationHandler else ret tt) ;;
  e <- open_call CreateEpollFd_call (init_epoll env) ;;
  set_epollFd e ;;
  epfd <- gets epollFd ;;
  if epfd <? 0 then ret (-1)
  else
    Log_Debug "Opening MT3620_RDB_BUTTON_A as input.\n" ;;
    b <- open_call (GPIO_OpenAsInput_call MT3620_RDB_BUTTON_A) (init_buttonGpio env) ;;
    set_ledBlinkRateButtonGpioFd b ;;
    bfd <- gets ledBlinkRateButtonGpioFd ;;
    if bfd <? 0 then
      Log_Debug "ERROR: Could not open button GPIO: %s (%d).\n" ;;
      ret (-1)
    else
      let buttonPressCheckPeriod := mk_timespec 0 1000000 in
      epfd <- gets epollFd ;;
      t <- open_call (CreateTimerFdAndAddToEpoll_call epfd buttonPressCheckPeriod
                        buttonEventData EPOLLIN) (init_buttonTimer env) ;;
      set_buttonPollTimerFd t ;;
      pfd <- gets buttonPollTimerFd ;;
      if pfd <? 0 then ret (-1)
      else
        Log_Debug "Opening MT3620_RDB_LED1_RED.\n(not really, opening MT3620_GPIO0)\n" ;;
        l <- open_call (GPIO_OpenAsOutput_call MT3620_GPIO0 GPIO_OutputMode_PushPull
                          GPIO_Value_High) (init_ledGpio env) ;;
        set_blinkingLedGpioFd l ;;
        lfd <- gets blinkingLedGpioFd ;;
        if lfd <? 0 then
          Log_Debug "ERROR: Could not open LED GPIO: %s (%d).\n" ;;
          ret (-1)
        else
          epfd <- gets epollFd ;;
          i <- gets blinkIntervalIndex ;;
          t <- open_call (CreateTimerFdAndAddToEpoll_call epfd (blinkIntervals_at i)
                            blinkingLedTimerEventData EPOLLIN) (init_ledTimer env) ;;
          set_blinkingLedTimerFd t ;;
          tfd <- gets blinkingLedTimerFd ;;
          if tfd <? 0 then ret (-1)
          else
            c <- open_call (I2CMaster_Open_call MT3620_I2C_ISU2) (init_i2c env) ;;
            set_i2cFd c ;;
            ifd <- gets i2cFd ;;
            if ifd <? 0 then ret (-1)
            else
              emit (EvI2CMaster_SetBusSpeed ifd I2C_BUS_SPEED_HIGH) ;;
              OLED (OLED_Init ifd true) ;;
              OLED (OLED_SetTextPos 0 3) ;;
              OLED (OLED_PutString "Display checked!") ;;
              OLED OLED_SetInverseDisplay ;;
              let waitPeriod := mk_timespec 0 (250 * 1000 * 1000) in
              emit (EvNanosleep waitPeriod) ;;
              OLED OLED_SetNormalDisplay ;;
              ret 0.

(** ** Teardown *)

(** The values the platform returns during teardown. *)
Record TeardownEnv : Type := mk_TeardownEnv {
  td_write : Z;                   (* GPIO_SetValue *)
  td_ledTimer : Z;                (* close, blink timer *)
  td_ledGpio : Z;                 (* close, output line *)
  td_buttonTimer : Z;             (* close, poll timer *)
  td_buttonGpio : Z;              (* close, input line *)
  td_epoll : Z                    (* close, epoll *)
}.

(** [ClosePeripheralsAndHandlers] (lines 193-206). *)
Definition ClosePeripheralsAndHandlers (env : TeardownEnv) : M unit :=
  lfd <- gets blinkingLedGpioFd ;;
  (if 0 <=? lfd then
     GPIO_SetValue lfd GPIO_Value_High (td_write env) ;; ret tt
   else ret tt) ;;
  Log_Debug "Closing file descriptors.\n" ;;
  tfd <- gets blinkingLedTimerFd ;;
  CloseFdAndPrintError tfd "BlinkingLedTimer" (td_ledTimer env) ;;
  lfd <- gets blinkingLedGpioFd ;;
  CloseFdAndPrintError lfd "BlinkingLedGpio" (td_ledGpio env) ;;
  pfd <- gets buttonPollTimerFd ;;
  CloseFdAndPrintError pfd "ButtonPollTimer" (td_buttonTimer env) ;;
  bfd <- gets ledBlinkRateButtonGpioFd ;;
  CloseFdAndPrintError bfd "LedBlinkRateButtonGpio" (td_buttonGpio env) ;;
  epfd <- gets epollFd ;;
  CloseFdAndPrintError epfd "Epoll" (td_epoll env).

(** ** The dispatch loop *)

(** How one call of [WaitForEventAndCallHandler] ends. *)
Inductive WaitOutcome : Type :=
  | Wait_failed                     (* the wait primitive failed *)
  | Wait_interrupted                (* a signal aborted the wait *)
  | Wait_ready (l : list Ready).    (* these sources were ready *)

(** Modelled from the spec: [WaitForEventAndCallHandler] is declared in
    epoll_timerfd_utilities.h and its body is not part of main.c.  The
    spec has it block until a registered source is ready or a signal
    aborts the wait; on readiness it invokes the bound handler once per
    ready source and returns; it returns an error when the wait primitive
    fails for a reason other than an interruption. *)
Definition WaitForEventAndCallHandler (epfd : Z) (o : WaitOutcome) : M Z :=
  match o with
  | Wait_failed =>
      emit (EvWait epfd (-1)) ;;
      Log_Debug "ERROR: Failed waiting on events: %s (%d).\n" ;;
      ret (-1)
  | Wait_interrupted =>
      emit (EvWait epfd 0) ;; ret 0
  | Wait_ready l =>
      emit (EvWait epfd 0) ;;
      call_handlers l ;;
      ret 0
  end.

(** One pass through the body of the loop: what the wait does, and whether
    a SIGTERM was delivered to the process during the pass. *)
Record Iteration : Type := mk_Iteration {
  it_sigterm : bool;
  it_wait : WaitOutcome
}.

(** The body of the [while] loop of [main] (lines 220-222).  The signal
    handler only sets the flag and the flag is read only at the loop head,
    so a SIGTERM of a pass is applied at its start. *)
Definition loop_body (it : Iteration) : M unit :=
  (if it_sigterm it then TerminationHandler else ret tt) ;;
  epfd <- gets epollFd ;;
  r <- WaitForEventAndCallHandler epfd (it_wait it) ;;
  if negb (r =? 0) then set_terminationRequired true else ret tt.

(** The [while] loop of [main] (lines 219-223), run against a finite
    schedule of passes.  The result is [true] when the loop has exited and
    [false] when the schedule is used up with the loop still running. *)
Fixpoint dispatch_loop (sched : list Iteration) : M bool :=
  t <- gets terminationRequired ;;
  if t then ret true
  else
    match sched with
    | [] => ret false
    | it :: rest => loop_body it ;; dispatch_loop rest
    end.

(** ** main *)

Record Input : Type := mk_Input {
  in_init : InitEnv;
  in_schedule : list Iteration;
  in_teardown : TeardownEnv
}.

(** [main] (lines 211-228).  [Some code] is the exit code; [None] means the
    schedule ended with the program still in its loop. *)
Definition main (input : Input) : M (option Z) :=
  Log_Debug "Blink application starting.\n" ;;
  r <- InitPeripheralsAndHandlers (in_init input) ;;
  (if negb (r =? 0) then set_terminationRequired true else ret tt) ;;
  exited <- dispatch_loop (in_schedule input) ;;
  if exited then
    ClosePeripheralsAndHandlers (in_teardown input) ;;
    Log_Debug "Application exiting.\n" ;;
    ret (Some 0)
  else ret None.

Definition run_main (input : Input) : option Z * Globals * list Event :=
  main input initial_globals.

(** ** Reading the log *)

(** Descriptors handed to [close], in order. *)
Definition closed_fds (evs : list Event) : list Z :=
  flat_map (fun e => match e with EvClose fd _ => [fd] | _ => [] end) evs.

(** Values returned by the calls that hand out a descriptor, in order. *)
Definition open_results (evs : list Event) : list Z :=
  flat_map (fun e => match e with EvOpen _ res => [res] | _ => [] end) evs.

(** Descriptors successfully opened, in order of creation. *)
Definition opened_fds (evs : list Event) : list Z :=
  filter (fun fd => 0 <=? fd) (open_results evs).

(** Number of calls of [WaitForEventAndCallHandler]. *)
Definition wait_calls (evs : list Event) : nat :=
  List.length (flat_map (fun e => match e with EvWait _ _ => [tt] | _ => [] end) evs).

(** Levels handed to [GPIO_SetValue], in order. *)
Definition written_levels (evs : list Event) : list GPIO_Value_Type :=
  flat_map (fun e => match e with EvGPIO_SetValue _ v _ => [v] | _ => [] end) evs.

(** Periods handed to [SetTimerFdToPeriod], in order. *)
Definition rearm_periods (evs : list Event) : list timespec :=
  flat_map (fun e => match e with EvSetTimerFdToPeriod _ p _ => [p] | _ => [] end) evs.

(** The press branch of the button handler starts by clearing the display,
    and nothing else in the file does: one [OLED_ClearDisplay] per press. *)
Definition press_events (evs : list Event) : nat :=
  List.length (flat_map (fun e => match e with EvOLED OLED_ClearDisplay => [tt] | _ => [] end) evs).

(** The level of the output line: the program has one output line; it is
    driven to the initial level when it is opened and to the written level
    by each write that succeeds, and keeps its level otherwise. *)
Definition drive (lvl : option GPIO_Value_Type) (e : Event) : option GPIO_Value_Type :=
  match e with
  | EvOpen (GPIO_OpenAsOutput_call _ _ v) res => if 0 <=? res then Some v else lvl
  | EvGPIO_SetValue _ v res => if res =? 0 then Some v else lvl
  | _ => lvl
  end.

Definition line_level (start : option GPIO_Value_Type) (evs : list Event) :
  option GPIO_Value_Type :=
  fold_left drive evs start.

Definition toggle (v : GPIO_Value_Type) : GPIO_Value_Type :=
  match v with
  | GPIO_Value_Low => GPIO_Value_High
  | GPIO_Value_High => GPIO_Value_Low
  end.

(** All six acquisitions of initialisation succeed. *)
Definition init_ok (env : InitEnv) : bool :=
  (0 <=? init_epoll env) && (0 <=? init_buttonGpio env) &&
  (0 <=? init_buttonTimer env) && (0 <=? init_ledGpio env) &&
  (0 <=? init_ledTimer env) && (0 <=? init_i2c env).

(** A firing during which a call that the handler always checks fails. *)
Definition firing_fails (x : Ready) : bool :=
  match x with
  | Ready_button r => negb (poll_consume r =? 0) || negb (poll_read r =? 0)
  | Ready_blink r => negb (blink_consume r =? 0) || negb (blink_write r =? 0)
  end.

(** A pass of the loop that requests termination whatever the state is. *)
Definition requests_termination (it : Iteration) : bool :=
  it_sigterm it ||
  match it_wait it with
  | Wait_failed => true
  | Wait_interrupted => false
  | Wait_ready l => existsb firing_fails l
  end.

(** ** Sample inputs *)

Definition sample_init : InitEnv := mk_InitEnv false 3 4 5 6 7 8.
Definition sample_teardown : TeardownEnv := mk_TeardownEnv 0 0 0 0 0 0.
Definition poll (v : GPIO_Value_Type) : Ready :=
  Ready_button (mk_ButtonFiring 0 0 v 0).
Definition blink : Ready := Ready_blink (mk_BlinkFiring 0 0).
Definition pass (l : list Ready) : Iteration := mk_Iteration false (Wait_ready l).
Definition sigterm_pass : Iteration := mk_Iteration true Wait_interrupted.

(** Four presses of the button, each followed by its release but the last. *)
Definition four_presses : list Ready :=
  [ poll GPIO_Value_Low; poll GPIO_Value_High;
    poll GPIO_Value_Low; poll GPIO_Value_High;
    poll GPIO_Value_Low; poll GPIO_Value_High;
    poll GPIO_Value_Low ].


(** The calls of the press branch into the display library (lines 100-112). *)
Definition press_display : list Event :=
  [ EvOLED OLED_ClearDisplay;
    EvOLED (OLED_SetTextPos 1 1); EvOLED (OLED_PutString "Hello World!");
    EvOLED (OLED_SetTextPos 2 2); EvOLED (OLED_PutString "Hello World!");
    EvOLED (OLED_SetTextPos 3 3); EvOLED (OLED_PutString "Hello World!");
    EvOLED (OLED_SetTextPos 4 4); EvOLED (OLED_PutString "Hello World!");
    EvOLED (OLED_ClearPos 7 3 5);
    EvOLED (OLED_SetVerticalScrollProperties SCROLL_VERTICAL_LEFT 3 6
              SCROLL_PER_25_FRAMES 1);
    EvOLED OLED_ActivateScroll ].

(** A poll-timer firing that is consumed and reads the line. *)
Definition read_succeeds (r : ButtonFiring) : Prop :=
  poll_consume r = 0 /\ poll_read r = 0.

(** A poll-timer firing that is consumed and reads the pressed level. *)
Definition pressed_read (r : ButtonFiring) : Prop :=
  read_succeeds r /\ poll_level r = GPIO_Value_Low.

(** A blink-timer firing that is consumed and whose write succeeds. *)
Definition blink_succeeds (r : BlinkFiring) : Prop :=
  blink_consume r = 0 /\ blink_write r = 0.

(** The six descriptors are the same in both states. *)
Definition same_fds (g g' : Globals) : Prop :=
  epollFd g' = epollFd g /\
  ledBlinkRateButtonGpioFd g' = ledBlinkRateButtonGpioFd g /\
  buttonPollTimerFd g' = buttonPollTimerFd g /\
  blinkingLedGpioFd g' = blinkingLedGpioFd g /\
  blinkingLedTimerFd g' = blinkingLedTimerFd g /\
  i2cFd g' = i2cFd g.

(** A log without acquisitions, releases or waits. *)
Definition quiet (evs : list Event) : Prop :=
  open_results evs = [] /\ closed_fds evs = [] /\ wait_calls evs = 0%nat.

(** What [CloseFdAndPrintError] logs for a descriptor. *)
Definition close_log (fd res : Z) : list Event :=
  if 0 <=? fd then
    EvClose fd res ::
    (if negb (res =? 0)
     then [EvLog_Debug "ERROR: Could not close fd %s: %s (%d).\n"] else [])
  else [].

(** The descriptors of a state that are open, in the order of creation and
    in the order in which teardown visits them. *)
Definition created (g : Globals) : list Z :=
  filter (fun fd => 0 <=? fd)
    [epollFd g; ledBlinkRateButtonGpioFd g; buttonPollTimerFd g;
     blinkingLedGpioFd g; blinkingLedTimerFd g; i2cFd g].

Definition visited (g : Globals) : list Z :=
  filter (fun fd => 0 <=? fd)
    [blinkingLedTimerFd g; blinkingLedGpioFd g; buttonPollTimerFd g;
     ledBlinkRateButtonGpioFd g; epollFd g].

(** The log of the five [CloseFdAndPrintError] calls of teardown. *)
Definition teardown_closes (env : TeardownEnv) (g : Globals) : list Event :=
  close_log (blinkingLedTimerFd g) (td_ledTimer env) ++
  close_log (blinkingLedGpioFd g) (td_ledGpio env) ++
  close_log (buttonPollTimerFd g) (td_buttonTimer env) ++
  close_log (ledBlinkRateButtonGpioFd g) (td_buttonGpio env) ++
  close_log (epollFd g) (td_epoll env).

(** The log [evs] takes the blink-interval index from [i] to [i']: with N
    presses in the log, [i'] is [i + N] modulo the table length and the
    k-th of them rearms the blink timer to the entry at [i + k]. *)
Definition advances (i : Z) (evs : list Event) (i' : Z) : Prop :=
  i' = (i + Z.of_nat (press_events evs)) mod numBlinkIntervals /\
  rearm_periods evs =
    map (fun k => blinkIntervals_at ((i + Z.of_nat k) mod numBlinkIntervals))
        (seq 1 (press_events evs)).

(** ** Further notions used to describe runs *)

(** A firing in which every call the handler may make succeeds. *)
Definition firing_ok (x : Ready) : bool :=
  match x with
  | Ready_button r =>
      (poll_consume r =? 0) && (poll_read r =? 0) && (poll_rearm r =? 0)
  | Ready_blink r => (blink_consume r =? 0) && (blink_write r =? 0)
  end.

(** A pass without SIGTERM whose wait is interrupted or serves firings
    that all succeed. *)
Definition pass_ok (it : Iteration) : bool :=
  negb (it_sigterm it) &&
  match it_wait it with
  | Wait_failed => false
  | Wait_interrupted => true
  | Wait_ready l => forallb firing_ok l
  end.

(** Number of High-to-Low steps in a sequence of levels that starts after
    the level [prev]. *)
Fixpoint falling_edges (prev : GPIO_Value_Type) (levels : list GPIO_Value_Type) : nat :=
  match levels with
  | [] => 0
  | v :: rest =>
      ((if GPIO_Value_eqb prev GPIO_Value_High && GPIO_Value_eqb v GPIO_Value_Low
        then 1 else 0) + falling_edges v rest)%nat
  end.

(** A poll-timer firing that is consumed and reads the level [v]. *)
Definition reading (v : GPIO_Value_Type) (rearm : Z) : Ready :=
  Ready_button (mk_ButtonFiring 0 0 v rearm).

(** Number of blink-timer firings of a sequence that are consumed. *)
Definition consumed (rs : list BlinkFiring) : nat :=
  List.length (filter (fun r => blink_consume r =? 0) rs).

(** The levels seen by the poll-timer firings of a sequence that get as
    far as the comparison: consumed, and read without error. *)
Definition levels_read (rs : list ButtonFiring) : list GPIO_Value_Type :=
  map poll_level
    (filter (fun r => (poll_consume r =? 0) && (poll_read r =? 0)) rs).

(** The period of the blink timer: the one it was created with, then the
    one of each [SetTimerFdToPeriod] that succeeds; the program rearms no
    other timer. *)
Definition period_step (p : option timespec) (e : Event) : option timespec :=
  match e with
  | EvOpen (CreateTimerFdAndAddToEpoll_call _ period blinkingLedTimerEventData _) res =>
      if 0 <=? res then Some period else p
  | EvSetTimerFdToPeriod _ period res => if res =? 0 then Some period else p
  | _ => p
  end.

Definition blink_period (evs : list Event) : option timespec :=
  fold_left period_step evs None.

(** Initialisation got as far as opening the output line. *)
Definition led_opened (env : InitEnv) : bool :=
  (0 <=? init_epoll env) && (0 <=? init_buttonGpio env) &&
  (0 <=? init_buttonTimer env) && (0 <=? init_ledGpio env).

(** The call logged as [e] concerns the descriptor that the state [g]
    holds for that kind of call: what an acquisition returns is what the
    matching variable holds, and every other call is made on the variable
    the source names at that call. *)
Definition right_target (g : Globals) (e : Event) : Prop :=
  match e with
  | EvOpen CreateEpollFd_call res => res = epollFd g
  | EvOpen (GPIO_OpenAsInput_call _) res => res = ledBlinkRateButtonGpioFd g
  | EvOpen (CreateTimerFdAndAddToEpoll_call epfd _ buttonEventData _) res =>
      epfd = epollFd g /\ res = buttonPollTimerFd g
  | EvOpen (CreateTimerFdAndAddToEpoll_call epfd _ blinkingLedTimerEventData _) res =>
      epfd = epollFd g /\ res = blinkingLedTimerFd g
  | EvOpen (GPIO_OpenAsOutput_call _ _ _) res => res = blinkingLedGpioFd g
  | EvOpen (I2CMaster_Open_call _) res => res = i2cFd g
  | EvConsumeTimerFdEvent fd _ =>
      fd = buttonPollTimerFd g \/ fd = blinkingLedTimerFd g
  | EvGPIO_GetValue fd _ _ => fd = ledBlinkRateButtonGpioFd g
  | EvGPIO_SetValue fd _ _ => fd = blinkingLedGpioFd g
  | EvSetTimerFdToPeriod fd _ _ => fd = blinkingLedTimerFd g
  | EvI2CMaster_SetBusSpeed fd _ => fd = i2cFd g
  | EvOLED (OLED_Init fd _) => fd = i2cFd g
  | EvWait epfd _ => epfd = epollFd g
  | EvClose fd _ =>
      In fd [blinkingLedTimerFd g; blinkingLedGpioFd g; buttonPollTimerFd g;
             ledBlinkRateButtonGpioFd g; epollFd g]
  | _ => True
  end.

(** The descriptors a logged call is made on. *)
Definition used_fds (e : Event) : list Z :=
  match e with
  | EvOpen (CreateTimerFdAndAddToEpoll_call epfd _ _ _) _ => [epfd]
  | EvConsumeTimerFdEvent fd _ => [fd]
  | EvGPIO_GetValue fd _ _ => [fd]
  | EvGPIO_SetValue fd _ _ => [fd]
  | EvSetTimerFdToPeriod fd _ _ => [fd]
  | EvI2CMaster_SetBusSpeed fd _ => [fd]
  | EvOLED (OLED_Init fd _) => [fd]
  | EvWait epfd _ => [epfd]
  | EvClose fd _ => [fd]
  | _ => []
  end.

Definition is_close (e : Event) : bool :=
  match e with EvClose _ _ => true | _ => false end.

(** Every call of [evs] is made on a descriptor among [opened], the ones
    opened so far, and, unless it is a close, before anything is closed;
    [closed] lists what has been closed so far. *)
Fixpoint respects (opened closed : list Z) (evs : list Event) : Prop :=
  match evs with
  | [] => True
  | e :: rest =>
      (forall fd, In fd (used_fds e) ->
         In fd opened /\ (is_close e = false -> closed = [])) /\
      respects (opened ++ opened_fds [e]) (closed ++ closed_fds [e]) rest
  end.

(** The six descriptor variables of a state. *)
Definition descriptors (g : Globals) : list Z :=
  [epollFd g; ledBlinkRateButtonGpioFd g; buttonPollTimerFd g;
   blinkingLedGpioFd g; blinkingLedTimerFd g; i2cFd g].

(** ** Proof automation *)

Ltac unfold_calls :=
  cbv [bind gets modify emit ret Log_Debug OLED open_call close
       ConsumeTimerFdEvent GPIO_GetValue GPIO_SetValue SetTimerFdToPeriod
       set_ledBlinkRateButtonGpioFd set_buttonPollTimerFd set_blinkingLedGpioFd
       set_blinkingLedTimerFd set_i2cFd set_epollFd set_buttonState set_ledState
       set_blinkIntervalIndex set_terminationRequired TerminationHandler].

Ltac unfold_calls_in H :=
  cbv [bind gets modify emit ret Log_Debug OLED open_call close
       ConsumeTimerFdEvent GPIO_GetValue GPIO_SetValue SetTimerFdToPeriod
       set_ledBlinkRateButtonGpioFd set_buttonPollTimerFd set_blinkingLedGpioFd
       set_blinkingLedTimerFd set_i2cFd set_epollFd set_buttonState set_ledState
       set_blinkIntervalIndex set_terminationRequired TerminationHandler] in H.

Ltac split_if :=
  match goal with
  | |- context [if ?b then _ else _] => destruct b eqn:?
  end.

(** ** Basic facts *)

Lemma GPIO_Value_eqb_spec (a b : GPIO_Value_Type) :
  reflect (a = b) (GPIO_Value_eqb a b).
Proof. destruct a, b; simpl; constructor; congruence. Qed.

Lemma toggle_changes v : toggle v <> v.
Proof. destruct v; discriminate. Qed.

(** The blink handler, path by path. *)
Lemma BlinkingLedTimerEventHandler_run r g :
  BlinkingLedTimerEventHandler r g =
  let consume := EvConsumeTimerFdEvent (blinkingLedTimerFd g) (blink_consume r) in
  let write :=
    EvGPIO_SetValue (blinkingLedGpioFd g) (toggle (ledState g)) (blink_write r) in
  if negb (blink_consume r =? 0) then
    (tt, with_terminationRequired true g, [consume])
  else if negb (blink_write r =? 0) then
    (tt, with_terminationRequired true (with_ledState (toggle (ledState g)) g),
     [consume; write;
      EvLog_Debug "ERROR: Could not set LED output value: %s (%d).\n"])
  else
    (tt, with_ledState (toggle (ledState g)) g, [consume; write]).
Proof.
  unfold BlinkingLedTimerEventHandler; unfold_calls; simpl.
  destruct (negb (blink_consume r =? 0)); [reflexivity|].
  destruct (ledState g); simpl;
    destruct (negb (blink_write r =? 0)); reflexivity.
Qed.

(** The button handler, path by path. *)
Lemma ButtonTimerEventHandler_run r g :
  ButtonTimerEventHandler r g =
  let consume := EvConsumeTimerFdEvent (buttonPollTimerFd g) (poll_consume r) in
  let read :=
    EvGPIO_GetValue (ledBlinkRateButtonGpioFd g) (poll_read r) (poll_level r) in
  let i' := Z.rem (blinkIntervalIndex g + 1) numBlinkIntervals in
  let rearm :=
    EvSetTimerFdToPeriod (blinkingLedTimerFd g) (blinkIntervals_at i') (poll_rearm r) in
  if negb (poll_consume r =? 0) then
    (tt, with_terminationRequired true g, [consume])
  else if negb (poll_read r =? 0) then
    (tt, with_terminationRequired true g,
     [consume; read; EvLog_Debug "ERROR: Could not read button GPIO: %s (%d).\n"])
  else if GPIO_Value_eqb (poll_level r) (buttonState g) then
    (tt, g, [consume; read])
  else if GPIO_Value_eqb (poll_level r) GPIO_Value_Low then
    (tt,
     with_buttonState (poll_level r)
       ((if negb (poll_rearm r =? 0) then with_terminationRequired true else id)
          (with_blinkIntervalIndex i' g)),
     [consume; read] ++ press_display ++ [rearm])
  else
    (tt, with_buttonState (poll_level r) g, [consume; read]).
Proof.
  unfold ButtonTimerEventHandler; unfold_calls; simpl.
  destruct (negb (poll_consume r =? 0)); [reflexivity|].
  destruct (negb (poll_read r =? 0)); [reflexivity|].
  destruct (GPIO_Value_eqb (poll_level r) (buttonState g)); simpl; [reflexivity|].
  destruct (GPIO_Value_eqb (poll_level r) GPIO_Value_Low); simpl; [|reflexivity].
  destruct (negb (poll_rearm r =? 0)); reflexivity.
Qed.

(** Projections of a sequenced computation. *)
Lemma bind_globals {A B} (m : M A) (f : A -> M B) g :
  globals_of (bind m f g) = globals_of (f (result_of (m g)) (globals_of (m g))).
Proof.
  unfold bind, result_of, globals_of.
  destruct (m g) as [[a g1] e1]; simpl.
  now destruct (f a g1) as [[b g2] e2].
Qed.

Lemma bind_events {A B} (m : M A) (f : A -> M B) g :
  events_of (bind m f g) =
  events_of (m g) ++ events_of (f (result_of (m g)) (globals_of (m g))).
Proof.
  unfold bind, result_of, globals_of, events_of.
  destruct (m g) as [[a g1] e1]; simpl.
  now destruct (f a g1) as [[b g2] e2].
Qed.

Lemma result_of_triple {A} (a : A) g e : result_of (a, g, e) = a.
Proof. reflexivity. Qed.

Lemma globals_of_triple {A} (a : A) g e : globals_of (a, g, e) = g.
Proof. reflexivity. Qed.

Lemma events_of_triple {A} (a : A) g e : events_of (a, g, e) = e.
Proof. reflexivity. Qed.

(** The log projections distribute over concatenation. *)
Lemma closed_fds_app a b : closed_fds (a ++ b) = closed_fds a ++ closed_fds b.
Proof. apply flat_map_app. Qed.

Lemma open_results_app a b : open_results (a ++ b) = open_results a ++ open_results b.
Proof. apply flat_map_app. Qed.

Lemma wait_calls_app a b : wait_calls (a ++ b) = (wait_calls a + wait_calls b)%nat.
Proof. unfold wait_calls. now rewrite flat_map_app, length_app. Qed.

Lemma written_levels_app a b :
  written_levels (a ++ b) = written_levels a ++ written_levels b.
Proof. apply flat_map_app. Qed.

Lemma rearm_periods_app a b :
  rearm_periods (a ++ b) = rearm_periods a ++ rearm_periods b.
Proof. apply flat_map_app. Qed.

Lemma press_events_app a b : press_events (a ++ b) = (press_events a + press_events b)%nat.
Proof. unfold press_events. now rewrite flat_map_app, length_app. Qed.

Lemma line_level_app s a b : line_level s (a ++ b) = line_level (line_level s a) b.
Proof. apply fold_left_app. Qed.

(** Handlers run in sequence. *)
Lemma call_handlers_cons_globals x l g :
  globals_of (call_handlers (x :: l) g) =
  globals_of (call_handlers l (globals_of (eventHandler x g))).
Proof. simpl. now rewrite bind_globals. Qed.

Lemma call_handlers_cons_events x l g :
  events_of (call_handlers (x :: l) g) =
  events_of (eventHandler x g) ++
  events_of (call_handlers l (globals_of (eventHandler x g))).
Proof. simpl. now rewrite bind_events. Qed.

Lemma nonzero_test z : z <> 0 -> negb (z =? 0) = true.
Proof. intro H. now apply Z.eqb_neq in H; rewrite H. Qed.

(** ** The button handler *)

(** The stored level after a firing that gets as far as the comparison. *)
Lemma button_stores_level_read (g : Globals) (r : ButtonFiring) :
  poll_consume r = 0 -> poll_read r = 0 ->
  buttonState (globals_of (ButtonTimerEventHandler r g)) = poll_level r.
Proof.
  intros Hc Hr. rewrite ButtonTimerEventHandler_run. cbv zeta.
  rewrite Hc, Hr. simpl.
  destruct (GPIO_Value_eqb_spec (poll_level r) (buttonState g)) as [E|E];
    [now simpl|].
  destruct (GPIO_Value_eqb (poll_level r) GPIO_Value_Low); reflexivity.
Qed.

Lemma call_handlers_snoc_globals l x : forall g,
  globals_of (call_handlers (l ++ [x]) g) =
  globals_of (eventHandler x (globals_of (call_handlers l g))).
Proof.
  induction l as [|y l IH]; intros g.
  - change ([] ++ [x]) with [x]. rewrite call_handlers_cons_globals.
    reflexivity.
  - change ((y :: l) ++ [x]) with (y :: (l ++ [x])).
    now rewrite !call_handlers_cons_globals, IH.
Qed.

(** C7: after a poll-timer firing in which consuming the firing and the
    line read succeed, the stored button level is the level just read,
    whatever the stored level was before, whether or not a press was
    emitted and whatever the rearm returned; this holds in whatever state
    earlier handler invocations have left, whether or not the level read
    differs from the stored one. *)
Theorem stored_level_follows_read (g : Globals) (r : ButtonFiring)
    (earlier : list Ready) :
  poll_consume r = 0 -> poll_read r = 0 ->
  let out := ButtonTimerEventHandler r g in
  buttonState (globals_of out) = poll_level r /\
  (poll_level r = buttonState g -> globals_of out = g) /\
  buttonState (globals_of (call_handlers (earlier ++ [Ready_button r]) g)) =
    poll_level r.
Proof.
  intros Hc Hr out. split; [|split].
  - exact (button_stores_level_read g r Hc Hr).
  - intros Same. subst out. rewrite ButtonTimerEventHandler_run. cbv zeta.
    rewrite Hc, Hr, Same. simpl.
    now destruct (buttonState g).
  - rewrite call_handlers_snoc_globals. simpl eventHandler.
    exact (button_stores_level_read _ r Hc Hr).
Qed.

Lemma stored_level_follows_read_witness :
  let r := mk_ButtonFiring 0 0 GPIO_Value_Low 0 in
  buttonState (globals_of (ButtonTimerEventHandler r initial_globals)) =
    GPIO_Value_Low /\
  buttonState (globals_of (call_handlers
    ([poll GPIO_Value_Low; blink; poll GPIO_Value_High] ++ [Ready_button r])
    initial_globals)) = GPIO_Value_Low.
Proof.
  destruct (stored_level_follows_read initial_globals
              (mk_ButtonFiring 0 0 GPIO_Value_Low 0)
              [poll GPIO_Value_Low; blink; poll GPIO_Value_High]
              eq_refl eq_refl) as (H1 & _ & H3).
  split; [exact H1|exact H3].
Defined.

(** C10: on a press whose rearm of the blink timer fails, the termination
    flag is set, and yet the blink-interval index has advanced modulo the
    table length and the stored button level is the pressed level just
    read: nothing is rolled back. *)
Theorem failed_rearm_keeps_state_changes (g : Globals) (r : ButtonFiring) :
  poll_consume r = 0 -> poll_read r = 0 ->
  buttonState g = GPIO_Value_High -> poll_level r = GPIO_Value_Low ->
  poll_rearm r <> 0 ->
  let out := ButtonTimerEventHandler r g in
  terminationRequired (globals_of out) = true /\
  blinkIntervalIndex (globals_of out) =
    Z.rem (blinkIntervalIndex g + 1) numBlinkIntervals /\
  buttonState (globals_of out) = GPIO_Value_Low /\
  press_events (events_of out) = 1%nat /\
  rearm_periods (events_of out) =
    [blinkIntervals_at (Z.rem (blinkIntervalIndex g + 1) numBlinkIntervals)].
Proof.
  intros Hc Hr Hold Hnew Hre out. subst out.
  rewrite ButtonTimerEventHandler_run. cbv zeta.
  rewrite Hc, Hr, Hold, Hnew, (nonzero_test _ Hre). simpl.
  repeat split; reflexivity.
Qed.

Lemma failed_rearm_keeps_state_changes_witness :
  let out := ButtonTimerEventHandler (mk_ButtonFiring 0 0 GPIO_Value_Low (-1))
               initial_globals in
  terminationRequired (globals_of out) = true /\
  blinkIntervalIndex (globals_of out) = 1 /\
  buttonState (globals_of out) = GPIO_Value_Low /\
  press_events (events_of out) = 1%nat /\
  rearm_periods (events_of out) = [mk_timespec 0 250000000].
Proof.
  apply (failed_rearm_keeps_state_changes initial_globals
           (mk_ButtonFiring 0 0 GPIO_Value_Low (-1)));
    solve [reflexivity | discriminate].
Defined.

(** C2: on a poll-timer firing whose line read succeeds, a press is emitted
    exactly when the stored level is High (released) and the level read is
    Low (pressed), and then exactly one; and a run of consecutive firings
    that all read Low emits no press after the first of them. *)
Theorem press_iff_falling_edge (g : Globals) (r : ButtonFiring)
    (rs : list ButtonFiring) :
  read_succeeds r -> Forall pressed_read rs ->
  let out := ButtonTimerEventHandler r g in
  (press_events (events_of out) = 1%nat <->
   buttonState g = GPIO_Value_High /\ poll_level r = GPIO_Value_Low) /\
  (press_events (events_of out) = 0%nat <->
   ~ (buttonState g = GPIO_Value_High /\ poll_level r = GPIO_Value_Low)) /\
  (poll_level r = GPIO_Value_Low ->
   press_events
     (events_of (call_handlers (map Ready_button rs) (globals_of out))) = 0%nat).
Proof.
  intros [Hc Hr] Hrs out.
  assert (Hst : buttonState (globals_of out) = poll_level r)
    by now apply button_stores_level_read.
  split; [|split].
  - subst out. rewrite ButtonTimerEventHandler_run. cbv zeta.
    rewrite Hc, Hr. simpl.
    destruct (poll_level r), (buttonState g); simpl; split;
      solve [ reflexivity | discriminate | intuition congruence ].
  - subst out. rewrite ButtonTimerEventHandler_run. cbv zeta.
    rewrite Hc, Hr. simpl.
    destruct (poll_level r), (buttonState g); simpl; split;
      solve [ reflexivity | discriminate | intuition congruence ].
  - intros Hlow. rewrite Hlow in Hst. clear Hlow.
    generalize dependent (globals_of out). clear out.
    induction Hrs as [|r' rs' [[Hc' Hr'] Hl'] _ IH]; intros g' Hst.
    + reflexivity.
    + simpl map. rewrite call_handlers_cons_events, press_events_app.
      rewrite IH.
      * simpl eventHandler. rewrite ButtonTimerEventHandler_run. cbv zeta.
        rewrite Hc', Hr', Hl', Hst. reflexivity.
      * simpl eventHandler.
        rewrite (button_stores_level_read g' r' Hc' Hr'). exact Hl'.
Qed.

Lemma press_iff_falling_edge_witness :
  let r := mk_ButtonFiring 0 0 GPIO_Value_Low 0 in
  let out := ButtonTimerEventHandler r initial_globals in
  (press_events (events_of out) = 1%nat <->
   buttonState initial_globals = GPIO_Value_High /\ poll_level r = GPIO_Value_Low) /\
  (press_events (events_of out) = 0%nat <->
   ~ (buttonState initial_globals = GPIO_Value_High /\
      poll_level r = GPIO_Value_Low)) /\
  (poll_level r = GPIO_Value_Low ->
   press_events
     (events_of (call_handlers (map Ready_button [r; r]) (globals_of out))) = 0%nat).
Proof.
  apply (press_iff_falling_edge initial_globals
           (mk_ButtonFiring 0 0 GPIO_Value_Low 0)
           [mk_ButtonFiring 0 0 GPIO_Value_Low 0; mk_ButtonFiring 0 0 GPIO_Value_Low 0]).
  - split; reflexivity.
  - repeat constructor.
Defined.

(** ** The blink handler *)

Lemma blink_firing_ok g r :
  blink_succeeds r ->
  BlinkingLedTimerEventHandler r g =
  (tt, with_ledState (toggle (ledState g)) g,
   [EvConsumeTimerFdEvent (blinkingLedTimerFd g) 0;
    EvGPIO_SetValue (blinkingLedGpioFd g) (toggle (ledState g)) 0]).
Proof.
  intros [Hc Hw]. rewrite BlinkingLedTimerEventHandler_run. cbv zeta.
  now rewrite Hc, Hw.
Qed.

(** C4: over any sequence of blink-timer firings in which consuming the
    firing and the write succeed, every firing toggles the stored output
    level once (it changes, and to the opposite level) and writes the new
    level to the line once; after n firings the stored level has been
    toggled n times and the n levels written are the successive toggles. *)
Theorem blink_toggles_once_per_firing (g : Globals) (rs : list BlinkFiring) :
  Forall blink_succeeds rs ->
  (forall r g0, In r rs ->
     let out := BlinkingLedTimerEventHandler r g0 in
     ledState (globals_of out) = toggle (ledState g0) /\
     ledState (globals_of out) <> ledState g0 /\
     written_levels (events_of out) = [ledState (globals_of out)]) /\
  let run := call_handlers (map Ready_blink rs) g in
  ledState (globals_of run) = Nat.iter (List.length rs) toggle (ledState g) /\
  written_levels (events_of run) =
    map (fun k => Nat.iter k toggle (ledState g)) (seq 1 (List.length rs)).
Proof.
  intros Hok. split.
  - intros r g0 Hin out. subst out.
    rewrite Forall_forall in Hok.
    rewrite (blink_firing_ok g0 r (Hok r Hin)). simpl.
    repeat split. apply toggle_changes.
  - revert g. induction Hok as [|r rs' Hr _ IH]; intros g.
    + split; reflexivity.
    + cbv zeta in *. simpl map.
      rewrite call_handlers_cons_globals, call_handlers_cons_events.
      simpl eventHandler. rewrite (blink_firing_ok g r Hr).
      rewrite !globals_of_triple, !events_of_triple.
      destruct (IH (with_ledState (toggle (ledState g)) g)) as [IH1 IH2].
      rewrite written_levels_app, IH1, IH2. simpl ledState. split.
      * simpl List.length. now rewrite Nat.iter_succ_r.
      * simpl List.length. simpl written_levels.
        change (seq 1 (S (List.length rs'))) with (1%nat :: seq 2 (List.length rs')).
        rewrite <- (seq_shift (List.length rs') 1), map_map. simpl. f_equal.
        apply map_ext. intros k. now rewrite <- Nat.iter_succ_r.
Qed.

Lemma blink_toggles_once_per_firing_witness :
  let rs := [mk_BlinkFiring 0 0; mk_BlinkFiring 0 0; mk_BlinkFiring 0 0] in
  let run := call_handlers (map Ready_blink rs) initial_globals in
  ledState (globals_of run) = GPIO_Value_Low /\
  written_levels (events_of run) = [GPIO_Value_Low; GPIO_Value_High; GPIO_Value_Low].
Proof.
  apply (blink_toggles_once_per_firing initial_globals
           [mk_BlinkFiring 0 0; mk_BlinkFiring 0 0; mk_BlinkFiring 0 0]).
  repeat constructor.
Defined.

(** C9: when the firing is consumed and the write to the output line
    fails, the stored output level has already been toggled; the error
    path sets the termination flag and does not restore it.  The line
    keeps the level it had, so if the stored level agreed with the line
    before the firing, the two disagree after it. *)
Theorem failed_write_leaves_level_toggled
    (g : Globals) (r : BlinkFiring) (history : list Event) :
  blink_consume r = 0 -> blink_write r <> 0 ->
  line_level None history = Some (ledState g) ->
  let out := BlinkingLedTimerEventHandler r g in
  ledState (globals_of out) = toggle (ledState g) /\
  terminationRequired (globals_of out) = true /\
  line_level None (history ++ events_of out) = Some (ledState g) /\
  line_level None (history ++ events_of out) <> Some (ledState (globals_of out)).
Proof.
  intros Hc Hw Hagree out. subst out.
  rewrite BlinkingLedTimerEventHandler_run. cbv zeta.
  rewrite Hc, (nonzero_test _ Hw). simpl negb. cbv iota.
  rewrite globals_of_triple, events_of_triple, line_level_app, Hagree.
  assert (Hz : (blink_write r =? 0) = false) by now apply Z.eqb_neq.
  simpl. rewrite Hz.
  repeat split. intros E. injection E as E. symmetry in E.
  exact (toggle_changes _ E).
Qed.

Lemma failed_write_leaves_level_toggled_witness :
  let start := InitPeripheralsAndHandlers sample_init initial_globals in
  let out := BlinkingLedTimerEventHandler (mk_BlinkFiring 0 (-1)) (globals_of start) in
  ledState (globals_of out) = GPIO_Value_Low /\
  terminationRequired (globals_of out) = true /\
  line_level None (events_of start ++ events_of out) = Some GPIO_Value_High /\
  line_level None (events_of start ++ events_of out) <>
    Some (ledState (globals_of out)).
Proof.
  apply (failed_write_leaves_level_toggled
           (globals_of (InitPeripheralsAndHandlers sample_init initial_globals))
           (mk_BlinkFiring 0 (-1))
           (events_of (InitPeripheralsAndHandlers sample_init initial_globals)));
    solve [reflexivity | discriminate].
Defined.

(** ** The blink-interval index *)

(** What one handler does to the index: either it leaves it alone and
    rearms nothing, or it is a press, which advances the index by one
    modulo the table length and rearms the blink timer to that entry. *)
Lemma eventHandler_index x g :
  let out := eventHandler x g in
  (press_events (events_of out) = 0%nat /\
   rearm_periods (events_of out) = [] /\
   blinkIntervalIndex (globals_of out) = blinkIntervalIndex g) \/
  (press_events (events_of out) = 1%nat /\
   rearm_periods (events_of out) =
     [blinkIntervals_at (Z.rem (blinkIntervalIndex g + 1) numBlinkIntervals)] /\
   blinkIntervalIndex (globals_of out) =
     Z.rem (blinkIntervalIndex g + 1) numBlinkIntervals).
Proof.
  destruct x as [r|r]; simpl eventHandler.
  - rewrite ButtonTimerEventHandler_run. cbv zeta.
    repeat split_if; simpl; auto.
  - rewrite BlinkingLedTimerEventHandler_run. cbv zeta.
    repeat split_if; simpl; auto.
Qed.

(** The index stays inside the table. *)
Lemma index_in_table x g :
  0 <= blinkIntervalIndex g < numBlinkIntervals ->
  0 <= blinkIntervalIndex (globals_of (eventHandler x g)) < numBlinkIntervals.
Proof.
  intros Hi. unfold numBlinkIntervals in *.
  destruct (eventHandler_index x g) as [(_ & _ & E)|(_ & _ & E)];
    cbv zeta in E; rewrite E; [exact Hi|].
  unfold numBlinkIntervals. rewrite Z.rem_mod_nonneg by lia.
  apply Z.mod_pos_bound. lia.
Qed.

Lemma index_after_handlers l : forall g,
  0 <= blinkIntervalIndex g < numBlinkIntervals ->
  let out := call_handlers l g in
  let N := press_events (events_of out) in
  blinkIntervalIndex (globals_of out) =
    (blinkIntervalIndex g + Z.of_nat N) mod numBlinkIntervals /\
  rearm_periods (events_of out) =
    map (fun k => blinkIntervals_at
                    ((blinkIntervalIndex g + Z.of_nat k) mod numBlinkIntervals))
        (seq 1 N).
Proof.
  induction l as [|x l IH]; intros g Hi; cbv zeta.
  - simpl. unfold numBlinkIntervals in *.
    rewrite Z.add_0_r, Z.mod_small by lia. auto.
  - rewrite call_handlers_cons_globals, call_handlers_cons_events.
    rewrite press_events_app, rearm_periods_app.
    pose proof (index_in_table x g Hi) as Hi'.
    destruct (IH _ Hi') as [IH1 IH2]. rewrite IH1, IH2. clear IH IH1 IH2.
    set (n := press_events (events_of (call_handlers l _))).
    destruct (eventHandler_index x g) as [(P & R & E)|(P & R & E)];
      cbv zeta in P, R, E; rewrite P, R, E; unfold numBlinkIntervals in *.
    + simpl. auto.
    + rewrite Z.rem_mod_nonneg by lia. split.
      * rewrite Zplus_mod_idemp_l. f_equal. lia.
      * simpl Nat.add.
        change (seq 1 (S n)) with (1%nat :: seq 2 n).
        rewrite <- (seq_shift n 1). rewrite map_cons, map_map. simpl app.
        f_equal. apply map_ext. intros k.
        rewrite Zplus_mod_idemp_l. do 2 f_equal. lia.
Qed.

Lemma advances_still i evs :
  0 <= i < numBlinkIntervals ->
  press_events evs = 0%nat -> rearm_periods evs = [] -> advances i evs i.
Proof.
  intros Hi P R. unfold advances. rewrite P, R. unfold numBlinkIntervals in *.
  simpl. rewrite Z.add_0_r, Z.mod_small by lia. auto.
Qed.

Lemma map_seq_offset {A} (f : nat -> A) (n1 : nat) : forall n s,
  map f (seq (n1 + s) n) = map (fun k => f (n1 + k)%nat) (seq s n).
Proof.
  induction n as [|n IH]; intros s; [reflexivity|].
  simpl. f_equal. rewrite <- IH. f_equal. f_equal. lia.
Qed.

Lemma advances_app i j k e1 e2 :
  advances i e1 j -> advances j e2 k -> advances i (e1 ++ e2) k.
Proof.
  unfold advances. intros [J R1] [K R2].
  rewrite press_events_app, rearm_periods_app, R1, R2.
  set (n1 := press_events e1). set (n2 := press_events e2).
  fold n1 in J. fold n2 in K. subst j k. split.
  - rewrite Zplus_mod_idemp_l. f_equal. lia.
  - rewrite seq_app, map_app. f_equal.
    rewrite (Nat.add_comm 1 n1), map_seq_offset.
    apply map_ext. intros a.
    rewrite Zplus_mod_idemp_l. do 2 f_equal. lia.
Qed.

(** ** Teardown *)

Lemma CloseFdAndPrintError_run fd name res g :
  CloseFdAndPrintError fd name res g = (tt, g, close_log fd res).
Proof.
  unfold CloseFdAndPrintError, close_log; unfold_calls.
  destruct (0 <=? fd); [|reflexivity]. simpl.
  destruct (negb (res =? 0)); reflexivity.
Qed.

Lemma close_log_closed fd res :
  closed_fds (close_log fd res) = if 0 <=? fd then [fd] else [].
Proof.
  unfold close_log. destruct (0 <=? fd); [|reflexivity].
  destruct (negb (res =? 0)); reflexivity.
Qed.

Lemma close_log_inert fd res :
  open_results (close_log fd res) = [] /\
  wait_calls (close_log fd res) = 0%nat /\
  written_levels (close_log fd res) = [] /\
  press_events (close_log fd res) = 0%nat /\
  rearm_periods (close_log fd res) = [] /\
  forall s, line_level s (close_log fd res) = s.
Proof.
  unfold close_log. destruct (0 <=? fd); [|now repeat split].
  destruct (negb (res =? 0)); now repeat split.
Qed.

(** Teardown, path by path: the safe level is written first when the
    output line is open, then the five descriptors are visited. *)
Lemma ClosePeripheralsAndHandlers_run env g :
  ClosePeripheralsAndHandlers env g =
  (tt, g,
   (if 0 <=? blinkingLedGpioFd g
    then [EvGPIO_SetValue (blinkingLedGpioFd g) GPIO_Value_High (td_write env)]
    else []) ++
   EvLog_Debug "Closing file descriptors.\n" :: teardown_closes env g).
Proof.
  unfold ClosePeripheralsAndHandlers, teardown_closes.
  unfold bind at 1. unfold gets at 1.
  unfold bind at 1.
  destruct (0 <=? blinkingLedGpioFd g); unfold_calls;
    rewrite !CloseFdAndPrintError_run; simpl;
    now rewrite ?app_nil_r, <- ?app_assoc.
Qed.

Lemma teardown_closes_closed env g :
  closed_fds (teardown_closes env g) = visited g.
Proof.
  unfold teardown_closes, visited.
  rewrite !closed_fds_app, !close_log_closed. simpl.
  repeat split_if; reflexivity.
Qed.

Lemma teardown_closes_inert env g :
  open_results (teardown_closes env g) = [] /\
  wait_calls (teardown_closes env g) = 0%nat /\
  press_events (teardown_closes env g) = 0%nat /\
  forall s, line_level s (teardown_closes env g) = s.
Proof.
  unfold teardown_closes.
  destruct (close_log_inert (blinkingLedTimerFd g) (td_ledTimer env))
    as (A1 & A2 & _ & A3 & _ & A4).
  destruct (close_log_inert (blinkingLedGpioFd g) (td_ledGpio env))
    as (B1 & B2 & _ & B3 & _ & B4).
  destruct (close_log_inert (buttonPollTimerFd g) (td_buttonTimer env))
    as (C1 & C2 & _ & C3 & _ & C4).
  destruct (close_log_inert (ledBlinkRateButtonGpioFd g) (td_buttonGpio env))
    as (D1 & D2 & _ & D3 & _ & D4).
  destruct (close_log_inert (epollFd g) (td_epoll env))
    as (E1 & E2 & _ & E3 & _ & E4).
  repeat split.
  - now rewrite !open_results_app, A1, B1, C1, D1, E1.
  - now rewrite !wait_calls_app, A2, B2, C2, D2, E2.
  - now rewrite !press_events_app, A3, B3, C3, D3, E3.
  - intros s. now rewrite !line_level_app, A4, B4, C4, D4, E4.
Qed.

(** ** Initialisation *)

Lemma not_negative z : (z <? 0) = false -> (0 <=? z) = true.
Proof. intros H. apply Z.ltb_ge in H. now apply Z.leb_le. Qed.

Lemma negative z : (z <? 0) = true -> (0 <=? z) = false.
Proof. intros H. apply Z.ltb_lt in H. apply Z.leb_gt. lia. Qed.

(** Initialisation from the initial state, summarised.  The acquisitions
    are attempted in order and stop at the first that fails. *)
Lemma init_summary env :
  let out := InitPeripheralsAndHandlers env initial_globals in
  let g := globals_of out in
  result_of out = (if init_ok env then 0 else -1) /\
  opened_fds (events_of out) = created g /\
  closed_fds (events_of out) = [] /\
  wait_calls (events_of out) = 0%nat /\
  press_events (events_of out) = 0%nat /\
  blinkIntervalIndex g = 0 /\
  terminationRequired g = init_sigterm env /\
  (init_ok env = true ->
   created g = [init_epoll env; init_buttonGpio env; init_buttonTimer env;
                init_ledGpio env; init_ledTimer env; init_i2c env] /\
   visited g = [init_ledTimer env; init_ledGpio env; init_buttonTimer env;
                init_buttonGpio env; init_epoll env] /\
   blinkingLedGpioFd g = init_ledGpio env /\
   i2cFd g = init_i2c env /\
   line_level None (events_of out) = Some GPIO_Value_High) /\
  (init_ok env = false ->
   visited g = rev (created g) /\
   exists oks bad,
     open_results (events_of out) = oks ++ [bad] /\
     Forall (fun fd => 0 <= fd) oks /\ bad < 0).
Proof.
  destruct env as [sg e b p l t i]. intros out g. subst g.
  remember out as o eqn:Ho. subst out.
  unfold InitPeripheralsAndHandlers in Ho; unfold_calls_in Ho.
  simpl in Ho.
  unfold init_ok, created, visited, opened_fds. simpl.
  destruct sg; simpl in Ho;
    repeat match type of Ho with
    | context [if ?z <? 0 then _ else _] => destruct (z <? 0) eqn:?; simpl in Ho
    end.
  all: subst o; simpl.
  all: repeat match goal with
       | H : (_ <? 0) = false |- _ => apply not_negative in H
       | H : (_ <? 0) = true |- _ => apply negative in H
       end.
  all: repeat match goal with H : (0 <=? _) = _ |- _ => rewrite H end; simpl.
  all: repeat split; try reflexivity; try discriminate.
  all: repeat match goal with
       | H : (0 <=? _) = true |- _ => apply Z.leb_le in H
       | H : (0 <=? _) = false |- _ => apply Z.leb_gt in H
       end.
  all: first
    [ exists [], e; repeat split; [constructor | lia]
    | exists [e], b; repeat split; [repeat constructor; lia | lia]
    | exists [e; b], p; repeat split; [repeat constructor; lia | lia]
    | exists [e; b; p], l; repeat split; [repeat constructor; lia | lia]
    | exists [e; b; p; l], t; repeat split; [repeat constructor; lia | lia]
    | exists [e; b; p; l; t], i; repeat split; [repeat constructor; lia | lia] ].
Qed.

(** ** Handlers leave the descriptors alone *)

Lemma same_fds_refl g : same_fds g g.
Proof. now repeat split. Qed.

Lemma same_fds_trans g1 g2 g3 : same_fds g1 g2 -> same_fds g2 g3 -> same_fds g1 g3.
Proof. unfold same_fds. intuition congruence. Qed.

Lemma same_fds_lists g g' : same_fds g g' -> created g' = created g /\ visited g' = visited g.
Proof.
  unfold same_fds, created, visited.
  intros (-> & -> & -> & -> & -> & ->). now split.
Qed.

(** A handler neither acquires nor releases a descriptor, does not wait,
    and never clears the termination flag. *)
Lemma eventHandler_steady x g :
  let out := eventHandler x g in
  same_fds g (globals_of out) /\ quiet (events_of out) /\
  (terminationRequired g = true -> terminationRequired (globals_of out) = true).
Proof.
  destruct x as [r|r]; simpl eventHandler.
  - rewrite ButtonTimerEventHandler_run. cbv zeta.
    repeat split_if; cbn; unfold same_fds, quiet; simpl; intuition.
  - rewrite BlinkingLedTimerEventHandler_run. cbv zeta.
    repeat split_if; cbn; unfold same_fds, quiet; simpl; intuition.
Qed.

(** A firing in which a checked call fails sets the termination flag. *)
Lemma eventHandler_fails x g :
  firing_fails x = true ->
  terminationRequired (globals_of (eventHandler x g)) = true.
Proof.
  destruct x as [r|r]; simpl.
  - rewrite ButtonTimerEventHandler_run. cbv zeta.
    destruct (negb (poll_consume r =? 0)); [reflexivity|].
    destruct (negb (poll_read r =? 0)); [reflexivity|discriminate].
  - rewrite BlinkingLedTimerEventHandler_run. cbv zeta.
    destruct (negb (blink_consume r =? 0)); [reflexivity|].
    destruct (negb (blink_write r =? 0)); [reflexivity|discriminate].
Qed.

Lemma call_handlers_steady l : forall g,
  let out := call_handlers l g in
  same_fds g (globals_of out) /\ quiet (events_of out) /\
  (terminationRequired g = true -> terminationRequired (globals_of out) = true).
Proof.
  induction l as [|x l IH]; intros g; cbv zeta.
  - simpl. unfold quiet. auto using same_fds_refl.
  - rewrite call_handlers_cons_globals, call_handlers_cons_events.
    destruct (eventHandler_steady x g) as (F1 & (O1 & C1 & W1) & T1).
    destruct (IH (globals_of (eventHandler x g))) as (F2 & (O2 & C2 & W2) & T2).
    split; [eapply same_fds_trans; eassumption|].
    split; [|auto]. unfold quiet.
    now rewrite open_results_app, closed_fds_app, wait_calls_app,
      O1, O2, C1, C2, W1, W2.
Qed.

Lemma call_handlers_fails l : forall g,
  existsb firing_fails l = true ->
  terminationRequired (globals_of (call_handlers l g)) = true.
Proof.
  induction l as [|x l IH]; intros g H; [discriminate|].
  rewrite call_handlers_cons_globals. simpl in H.
  apply orb_true_iff in H. destruct H as [H|H].
  - apply call_handlers_steady. now apply eventHandler_fails.
  - now apply IH.
Qed.

(** ** The loop *)

(** One pass of the loop, path by path. *)
Lemma loop_body_run it g :
  loop_body it g =
  let g0 := if it_sigterm it then with_terminationRequired true g else g in
  match it_wait it with
  | Wait_failed =>
      (tt, with_terminationRequired true g0,
       [EvWait (epollFd g) (-1);
        EvLog_Debug "ERROR: Failed waiting on events: %s (%d).\n"])
  | Wait_interrupted => (tt, g0, [EvWait (epollFd g) 0])
  | Wait_ready l =>
      (tt, globals_of (call_handlers l g0),
       EvWait (epollFd g) 0 :: events_of (call_handlers l g0))
  end.
Proof.
  unfold loop_body, WaitForEventAndCallHandler. cbv zeta.
  destruct (it_sigterm it), (it_wait it) as [| |l]; unfold_calls; simpl;
    try reflexivity.
  - destruct (call_handlers l (with_terminationRequired true g)) as [[u g'] e'].
    simpl. now rewrite !app_nil_r.
  - destruct (call_handlers l g) as [[u g'] e'].
    simpl. now rewrite !app_nil_r.
Qed.

Lemma loop_body_steady it g :
  let out := loop_body it g in
  same_fds g (globals_of out) /\
  open_results (events_of out) = [] /\
  closed_fds (events_of out) = [] /\
  wait_calls (events_of out) = 1%nat /\
  (terminationRequired g = true -> terminationRequired (globals_of out) = true) /\
  (requests_termination it = true -> terminationRequired (globals_of out) = true).
Proof.
  cbv zeta. rewrite loop_body_run. unfold requests_termination. cbv zeta.
  set (g0 := if it_sigterm it then with_terminationRequired true g else g).
  assert (F0 : same_fds g g0)
    by (subst g0; destruct (it_sigterm it); now repeat split).
  assert (T0 : terminationRequired g = true -> terminationRequired g0 = true)
    by (subst g0; destruct (it_sigterm it); auto).
  assert (S0 : it_sigterm it = true -> terminationRequired g0 = true)
    by (subst g0; intros ->; reflexivity).
  destruct (it_wait it) as [| |l].
  - rewrite globals_of_triple, events_of_triple.
    repeat split; try reflexivity; apply F0.
  - rewrite globals_of_triple, events_of_triple.
    repeat split; try reflexivity; try apply F0; auto.
    rewrite orb_false_r. exact S0.
  - rewrite globals_of_triple, events_of_triple.
    destruct (call_handlers_steady l g0) as (F1 & (O1 & C1 & W1) & T1).
    cbv zeta in *.
    split; [eapply same_fds_trans; eassumption|].
    split; [exact O1|]. split; [exact C1|].
    split; [change (wait_calls (?e :: ?r)) with (S (wait_calls r)); now rewrite W1|].
    split; [auto|].
    intros H. apply orb_true_iff in H. destruct H as [H|H]; [auto|].
    now apply call_handlers_fails.
Qed.

Lemma dispatch_loop_exit sched g :
  terminationRequired g = true -> dispatch_loop sched g = (true, g, []).
Proof.
  intros H. destruct sched; simpl; unfold bind, gets, ret; now rewrite H.
Qed.

Lemma dispatch_loop_nil g :
  terminationRequired g = false -> dispatch_loop [] g = (false, g, []).
Proof. intros H. simpl; unfold bind, gets, ret; now rewrite H. Qed.

Lemma dispatch_loop_cons it rest g :
  terminationRequired g = false ->
  dispatch_loop (it :: rest) g =
  let o := dispatch_loop rest (globals_of (loop_body it g)) in
  (result_of o, globals_of o, events_of (loop_body it g) ++ events_of o).
Proof.
  intros H. simpl. unfold bind at 1. unfold gets at 1. rewrite H.
  unfold bind, result_of, globals_of, events_of.
  destruct (loop_body it g) as [[u g1] e1]. simpl.
  now destruct (dispatch_loop rest g1) as [[b g2] e2].
Qed.

(** The loop acquires and releases nothing; it reports an exit exactly
    when the flag is set; while it is running every pass has waited once. *)
Lemma dispatch_loop_steady sched : forall g,
  let out := dispatch_loop sched g in
  same_fds g (globals_of out) /\
  open_results (events_of out) = [] /\
  closed_fds (events_of out) = [] /\
  result_of out = terminationRequired (globals_of out) /\
  (result_of out = false -> wait_calls (events_of out) = List.length sched).
Proof.
  induction sched as [|it rest IH]; intros g; cbv zeta;
    destruct (terminationRequired g) eqn:Ht.
  - rewrite dispatch_loop_exit by assumption. simpl.
    repeat split; auto; discriminate.
  - rewrite dispatch_loop_nil by assumption. simpl.
    repeat split; auto.
  - rewrite dispatch_loop_exit by assumption. simpl.
    repeat split; auto; discriminate.
  - rewrite dispatch_loop_cons by assumption. cbv zeta.
    rewrite result_of_triple, globals_of_triple, events_of_triple.
    destruct (loop_body_steady it g) as (F1 & O1 & C1 & W1 & _).
    destruct (IH (globals_of (loop_body it g))) as (F2 & O2 & C2 & R2 & W2).
    cbv zeta in *.
    split; [eapply same_fds_trans; eassumption|].
    rewrite open_results_app, closed_fds_app, wait_calls_app, O1, O2, C1, C2, W1.
    repeat split; auto.
    intros H. rewrite (W2 H). reflexivity.
Qed.

(** A schedule that leaves the loop running can be continued. *)
Lemma dispatch_loop_app pre rest : forall g,
  result_of (dispatch_loop pre g) = false ->
  dispatch_loop (pre ++ rest) g =
  (result_of (dispatch_loop rest (globals_of (dispatch_loop pre g))),
   globals_of (dispatch_loop rest (globals_of (dispatch_loop pre g))),
   events_of (dispatch_loop pre g) ++
   events_of (dispatch_loop rest (globals_of (dispatch_loop pre g)))).
Proof.
  induction pre as [|it pre IH]; intros g H;
    destruct (terminationRequired g) eqn:Ht.
  - rewrite dispatch_loop_exit in H by assumption. discriminate.
  - rewrite (dispatch_loop_nil g) by assumption.
    rewrite globals_of_triple, events_of_triple.
    change ([] ++ rest) with rest.
    now destruct (dispatch_loop rest g) as [[b g'] e'].
  - rewrite dispatch_loop_exit in H by assumption. discriminate.
  - change ((it :: pre) ++ rest) with (it :: (pre ++ rest)).
    rewrite (dispatch_loop_cons it (pre ++ rest) g Ht).
    rewrite (dispatch_loop_cons it pre g Ht) in H |- *.
    cbv zeta in H |- *.
    rewrite result_of_triple in H.
    rewrite (IH _ H).
    rewrite !result_of_triple, !globals_of_triple, !events_of_triple.
    now rewrite app_assoc.
Qed.

(** Once the loop has exited, the rest of the schedule is not looked at. *)
Lemma dispatch_loop_exited pre rest : forall g,
  result_of (dispatch_loop pre g) = true ->
  dispatch_loop (pre ++ rest) g = dispatch_loop pre g.
Proof.
  induction pre as [|it pre IH]; intros g H;
    destruct (terminationRequired g) eqn:Ht.
  - now rewrite !dispatch_loop_exit by assumption.
  - rewrite dispatch_loop_nil in H by assumption. discriminate.
  - now rewrite !dispatch_loop_exit by assumption.
  - simpl app. rewrite !dispatch_loop_cons by assumption. cbv zeta.
    rewrite dispatch_loop_cons in H by assumption. cbv zeta in H.
    rewrite result_of_triple in H.
    now rewrite (IH _ H).
Qed.

(** A pass that requests termination ends the loop, wherever it stands in
    the schedule. *)
Lemma dispatch_loop_terminates pre it rest g :
  requests_termination it = true ->
  result_of (dispatch_loop (pre ++ it :: rest) g) = true.
Proof.
  intros Hreq.
  destruct (result_of (dispatch_loop pre g)) eqn:Hpre.
  - now rewrite dispatch_loop_exited.
  - rewrite dispatch_loop_app by assumption.
    rewrite result_of_triple.
    destruct (dispatch_loop_steady pre g) as (_ & _ & _ & R & _).
    cbv zeta in R. rewrite Hpre in R. symmetry in R.
    rewrite dispatch_loop_cons by assumption. cbv zeta.
    rewrite result_of_triple.
    rewrite dispatch_loop_exit; [reflexivity|].
    now apply loop_body_steady.
Qed.

(** ** main *)

(** [main] as the sequence of its three phases. *)
Lemma run_main_phases input :
  let i := InitPeripheralsAndHandlers (in_init input) initial_globals in
  let g1 := if negb (result_of i =? 0)
            then with_terminationRequired true (globals_of i)
            else globals_of i in
  let lp := dispatch_loop (in_schedule input) g1 in
  let start := EvLog_Debug "Blink application starting.\n" in
  run_main input =
  if result_of lp then
    (Some 0, globals_of lp,
     start :: events_of i ++ events_of lp ++
     events_of (ClosePeripheralsAndHandlers (in_teardown input) (globals_of lp)) ++
     [EvLog_Debug "Application exiting.\n"])
  else
    (None, globals_of lp, start :: events_of i ++ events_of lp).
Proof.
  cbv zeta. unfold run_main, main.
  unfold bind at 1. unfold Log_Debug at 1. unfold emit at 1.
  unfold bind at 1.
  destruct (InitPeripheralsAndHandlers (in_init input) initial_globals)
    as [[r g] e].
  rewrite result_of_triple, globals_of_triple, events_of_triple.
  unfold bind at 1.
  assert (E : (if negb (r =? 0) then set_terminationRequired true else ret tt) g =
              (tt, (if negb (r =? 0) then with_terminationRequired true g else g), []))
    by now destruct (negb (r =? 0)).
  rewrite E. clear E.
  set (g1 := if negb (r =? 0) then with_terminationRequired true g else g).
  unfold bind at 1.
  destruct (dispatch_loop (in_schedule input) g1) as [[b g2] e2].
  rewrite result_of_triple, globals_of_triple, events_of_triple.
  destruct b.
  - unfold_calls. rewrite !ClosePeripheralsAndHandlers_run.
    rewrite events_of_triple. simpl. now rewrite ?app_nil_r.
  - unfold ret. simpl. now rewrite ?app_nil_r.
Qed.

Lemma teardown_closes_no_write env g : written_levels (teardown_closes env g) = [].
Proof.
  unfold teardown_closes. rewrite !written_levels_app.
  now repeat match goal with
      | |- context [written_levels (close_log ?fd ?res)] =>
          let H := fresh in
          destruct (close_log_inert fd res) as (_ & _ & H & _); rewrite H; clear H
      end.
Qed.

(** What teardown logs. *)
Lemma teardown_summary env g :
  let e := events_of (ClosePeripheralsAndHandlers env g) in
  closed_fds e = visited g /\
  open_results e = [] /\
  wait_calls e = 0%nat /\
  press_events e = 0%nat /\
  (0 <= blinkingLedGpioFd g ->
   exists after,
     e = EvGPIO_SetValue (blinkingLedGpioFd g) GPIO_Value_High (td_write env) :: after /\
     closed_fds after = visited g /\
     written_levels after = [] /\
     forall s, line_level s after = s).
Proof.
  cbv zeta. rewrite ClosePeripheralsAndHandlers_run, events_of_triple.
  destruct (teardown_closes_inert env g) as (O & W & P & L).
  pose proof (teardown_closes_closed env g) as C.
  pose proof (teardown_closes_no_write env g) as V.
  rewrite closed_fds_app, open_results_app, wait_calls_app, press_events_app.
  change (closed_fds (EvLog_Debug ?m :: ?r)) with (closed_fds r).
  change (open_results (EvLog_Debug ?m :: ?r)) with (open_results r).
  change (wait_calls (EvLog_Debug ?m :: ?r)) with (wait_calls r).
  change (press_events (EvLog_Debug ?m :: ?r)) with (press_events r).
  rewrite C, O, W, P.
  destruct (0 <=? blinkingLedGpioFd g) eqn:Hl.
  - repeat split; try reflexivity. intros _.
    eexists. split; [reflexivity|].
    change (closed_fds (EvLog_Debug ?m :: ?r)) with (closed_fds r).
    change (written_levels (EvLog_Debug ?m :: ?r)) with (written_levels r).
    repeat split; auto.
  - repeat split; try reflexivity. intros H.
    apply Z.leb_gt in Hl. lia.
Qed.

Lemma visited_nonnegative g : Forall (fun fd => 0 <= fd) (visited g).
Proof.
  apply Forall_forall. intros fd H. unfold visited in H.
  apply filter_In in H. destruct H as [_ H]. now apply Z.leb_le.
Qed.

(** ** Failed initialisation *)

(** C6: if an acquisition of initialisation fails, initialisation stops
    there: the failed call is the last acquisition ever attempted and all
    before it had succeeded.  [main] then never calls the wait, runs
    teardown and returns; teardown closes exactly the descriptors that
    had been opened, in reverse order of creation, and never passes a
    negative descriptor to [close]. *)
Theorem failed_init_unwinds (input : Input) :
  init_ok (in_init input) = false ->
  let i := InitPeripheralsAndHandlers (in_init input) initial_globals in
  let out := run_main input in
  result_of i = -1 /\
  (exists oks bad,
     open_results (events_of out) = oks ++ [bad] /\
     Forall (fun fd => 0 <= fd) oks /\ bad < 0) /\
  open_results (events_of out) = open_results (events_of i) /\
  wait_calls (events_of out) = 0%nat /\
  result_of out = Some 0 /\
  closed_fds (events_of out) = rev (opened_fds (events_of out)) /\
  Forall (fun fd => 0 <= fd) (closed_fds (events_of out)).
Proof.
  intros Hbad i out.
  destruct (init_summary (in_init input))
    as (R & Op & Cl & Wt & _ & _ & _ & _ & Hfail).
  cbv zeta in R, Op, Cl, Wt, Hfail. fold i in R, Op, Cl, Wt, Hfail.
  rewrite Hbad in R. destruct (Hfail Hbad) as (Hrev & oks & bad & Hopen & Hoks & Hneg).
  clear Hfail.
  pose proof (run_main_phases input) as Hmain. cbv zeta in Hmain.
  fold i in Hmain. fold out in Hmain. rewrite R in Hmain. simpl negb in Hmain.
  cbv iota in Hmain.
  rewrite dispatch_loop_exit in Hmain by reflexivity.
  rewrite result_of_triple, globals_of_triple, events_of_triple in Hmain.
  destruct (teardown_summary (in_teardown input)
              (with_terminationRequired true (globals_of i)))
    as (Tc & To & Tw & _ & _).
  cbv zeta in Tc, To, Tw.
  change (visited (with_terminationRequired true (globals_of i)))
    with (visited (globals_of i)) in Tc.
  assert (Hopens : open_results (events_of out) = open_results (events_of i)).
  { rewrite Hmain, events_of_triple.
    change (open_results (EvLog_Debug ?m :: ?r)) with (open_results r).
    rewrite !open_results_app, To. simpl. now rewrite app_nil_r. }
  assert (Hcloses : closed_fds (events_of out) = visited (globals_of i)).
  { rewrite Hmain, events_of_triple.
    change (closed_fds (EvLog_Debug ?m :: ?r)) with (closed_fds r).
    rewrite !closed_fds_app, Cl, Tc. simpl. now rewrite app_nil_r. }
  split; [exact R|].
  split; [exists oks, bad; rewrite Hopens; auto|].
  split; [exact Hopens|].
  split.
  { rewrite Hmain, events_of_triple.
    change (wait_calls (EvLog_Debug ?m :: ?r)) with (wait_calls r).
    rewrite !wait_calls_app, Wt, Tw. reflexivity. }
  split; [now rewrite Hmain|].
  split.
  - unfold opened_fds at 1. rewrite Hopens. fold (opened_fds (events_of i)).
    now rewrite Hcloses, Op.
  - rewrite Hcloses. apply visited_nonnegative.
Qed.

Lemma failed_init_unwinds_witness :
  let input := mk_Input (mk_InitEnv false 3 4 5 (-1) 7 8)
                 [pass [blink]; sigterm_pass] sample_teardown in
  let out := run_main input in
  result_of (InitPeripheralsAndHandlers (in_init input) initial_globals) = -1 /\
  (exists oks bad,
     open_results (events_of out) = oks ++ [bad] /\
     Forall (fun fd => 0 <= fd) oks /\ bad < 0) /\
  open_results (events_of out) = [3; 4; 5; -1] /\
  wait_calls (events_of out) = 0%nat /\
  result_of out = Some 0 /\
  closed_fds (events_of out) = rev (opened_fds (events_of out)) /\
  Forall (fun fd => 0 <= fd) (closed_fds (events_of out)).
Proof.
  apply (failed_init_unwinds
           (mk_Input (mk_InitEnv false 3 4 5 (-1) 7 8)
              [pass [blink]; sigterm_pass] sample_teardown)).
  reflexivity.
Defined.

(** ** Teardown after a successful initialisation *)

(** When [main] returns after a successful initialisation, the log splits
    into what happened before teardown, the write of the safe level, and
    the rest of teardown. *)
Lemma exit_after_successful_init (input : Input) :
  init_ok (in_init input) = true ->
  result_of (run_main input) = Some 0 ->
  let env := in_init input in
  let out := run_main input in
  terminationRequired (globals_of out) = true /\
  opened_fds (events_of out) =
    [init_epoll env; init_buttonGpio env; init_buttonTimer env;
     init_ledGpio env; init_ledTimer env; init_i2c env] /\
  closed_fds (events_of out) =
    [init_ledTimer env; init_ledGpio env; init_buttonTimer env;
     init_buttonGpio env; init_epoll env] /\
  exists before after,
    events_of out =
      before ++
      EvGPIO_SetValue (init_ledGpio env) GPIO_Value_High
        (td_write (in_teardown input)) :: after /\
    closed_fds before = [] /\
    written_levels after = [] /\
    forall s, line_level s after = s.
Proof.
  intros Hok Hexit env out.
  destruct (init_summary (in_init input))
    as (R & Op & Cl & _ & _ & _ & _ & Hgood & _).
  cbv zeta in R, Op, Cl, Hgood.
  rewrite Hok in R. destruct (Hgood Hok) as (Hcr & Hvis & Hled & _ & Hline).
  clear Hgood.
  pose proof (run_main_phases input) as Hmain. cbv zeta in Hmain.
  rewrite R in Hmain. simpl negb in Hmain. cbv iota in Hmain.
  set (i := InitPeripheralsAndHandlers (in_init input) initial_globals) in *.
  set (lp := dispatch_loop (in_schedule input) (globals_of i)) in *.
  destruct (dispatch_loop_steady (in_schedule input) (globals_of i))
    as (F & Lo & Lc & Lr & _).
  cbv zeta in F, Lo, Lc, Lr. fold lp in F, Lo, Lc, Lr.
  destruct (result_of lp) eqn:Hlp;
    [|fold out in Hexit; unfold out in Hexit; rewrite Hmain in Hexit; discriminate].
  destruct (same_fds_lists _ _ F) as [_ Fv].
  assert (Fl : blinkingLedGpioFd (globals_of lp) = init_ledGpio env).
  { destruct F as (_ & _ & _ & F & _). now rewrite F. }
  assert (Hnonneg : 0 <= init_ledGpio env).
  { unfold init_ok in Hok. rewrite !andb_true_iff in Hok.
    destruct Hok as [[[_ H] _] _]. now apply Z.leb_le. }
  destruct (teardown_summary (in_teardown input) (globals_of lp))
    as (Tc & To & _ & _ & Tw).
  cbv zeta in Tc, To, Tw.
  rewrite Fl in Tw. destruct (Tw Hnonneg) as (after & Eafter & Ac & Aw & Al).
  clear Tw.
  assert (Hev : events_of out =
                (EvLog_Debug "Blink application starting.\n"
                   :: events_of i ++ events_of lp) ++
                EvGPIO_SetValue (init_ledGpio env) GPIO_Value_High
                  (td_write (in_teardown input))
                  :: (after ++ [EvLog_Debug "Application exiting.\n"])).
  { unfold out. rewrite Hmain, events_of_triple, Eafter. simpl.
    now rewrite <- !app_assoc. }
  split; [unfold out; rewrite Hmain, globals_of_triple; now rewrite <- Lr|].
  split.
  { unfold opened_fds. unfold out. rewrite Hmain, events_of_triple.
    change (open_results (EvLog_Debug ?m :: ?r)) with (open_results r).
    rewrite !open_results_app, Lo, To. simpl. rewrite ?app_nil_r.
    fold (opened_fds (events_of i)). now rewrite Op, Hcr. }
  split.
  { unfold out. rewrite Hmain, events_of_triple.
    change (closed_fds (EvLog_Debug ?m :: ?r)) with (closed_fds r).
    rewrite !closed_fds_app, Cl, Lc, Tc, Fv, Hvis. simpl. now rewrite ?app_nil_r. }
  eexists; eexists. split; [exact Hev|].
  split.
  { change (closed_fds (EvLog_Debug ?m :: ?r)) with (closed_fds r).
    now rewrite closed_fds_app, Cl, Lc. }
  split.
  { now rewrite written_levels_app, Aw. }
  intros s. now rewrite line_level_app, Al.
Qed.

(** C1: what teardown does when [main] returns after a successful
    initialisation.  The safe level is written to the output line before
    any descriptor is closed, and the epoll, button, poll-timer, LED and
    blink-timer descriptors are closed once each in reverse order of
    creation.  The I2C descriptor, opened last, is not among the
    descriptors closed: six were opened and five are closed, so the
    closes are not the reverse of the opens. *)
Theorem teardown_skips_i2c (input : Input) :
  init_ok (in_init input) = true ->
  result_of (run_main input) = Some 0 ->
  let env := in_init input in
  let out := run_main input in
  opened_fds (events_of out) =
    [init_epoll env; init_buttonGpio env; init_buttonTimer env;
     init_ledGpio env; init_ledTimer env; init_i2c env] /\
  closed_fds (events_of out) =
    [init_ledTimer env; init_ledGpio env; init_buttonTimer env;
     init_buttonGpio env; init_epoll env] /\
  (exists before after,
     events_of out =
       before ++
       EvGPIO_SetValue (init_ledGpio env) GPIO_Value_High
         (td_write (in_teardown input)) :: after /\
     closed_fds before = []) /\
  closed_fds (events_of out) = rev (removelast (opened_fds (events_of out))) /\
  closed_fds (events_of out) <> rev (opened_fds (events_of out)) /\
  (~ In (init_i2c env) (removelast (opened_fds (events_of out))) ->
   ~ In (init_i2c env) (closed_fds (events_of out))).
Proof.
  intros Hok Hexit env out.
  destruct (exit_after_successful_init input Hok Hexit)
    as (_ & Ho & Hc & before & after & Hev & Hb & _).
  cbv zeta in Ho, Hc, Hev. fold env in Ho, Hc, Hev. fold out in Ho, Hc, Hev.
  split; [exact Ho|]. split; [exact Hc|].
  split; [exists before, after; auto|].
  rewrite Ho, Hc. simpl. repeat split.
  - discriminate.
  - intros Hnot Hin. apply Hnot. simpl in *. tauto.
Qed.

Lemma teardown_skips_i2c_witness :
  let out := run_main (mk_Input sample_init [pass [blink]; sigterm_pass]
                         sample_teardown) in
  opened_fds (events_of out) = [3; 4; 5; 6; 7; 8] /\
  closed_fds (events_of out) = [7; 6; 5; 4; 3] /\
  ~ In 8 (closed_fds (events_of out)).
Proof.
  destruct (teardown_skips_i2c
              (mk_Input sample_init [pass [blink]; sigterm_pass] sample_teardown)
              eq_refl eq_refl) as (Ho & Hc & _ & _ & _ & Hnot).
  split; [exact Ho|]. split; [exact Hc|].
  apply Hnot. simpl. intros H.
  repeat (destruct H as [H|H]; [discriminate H|]). exact H.
Defined.

(** ** Passes that end the loop *)

Lemma dispatch_loop_stops pre it rest g :
  result_of (dispatch_loop pre g) = false ->
  requests_termination it = true ->
  dispatch_loop (pre ++ it :: rest) g =
  (true,
   globals_of (loop_body it (globals_of (dispatch_loop pre g))),
   events_of (dispatch_loop pre g) ++
   events_of (loop_body it (globals_of (dispatch_loop pre g)))).
Proof.
  intros Hpre Hreq.
  rewrite dispatch_loop_app by assumption.
  destruct (dispatch_loop_steady pre g) as (_ & _ & _ & R & _).
  cbv zeta in R. rewrite Hpre in R. symmetry in R.
  rewrite (dispatch_loop_cons it rest _ R). cbv zeta.
  rewrite dispatch_loop_exit by now apply loop_body_steady.
  rewrite !result_of_triple, !globals_of_triple, !events_of_triple.
  now rewrite app_nil_r.
Qed.

(** A program still in its loop after [pre] has initialised successfully
    and has not been asked to terminate. *)
Lemma still_running init pre td :
  result_of (run_main (mk_Input init pre td)) = None ->
  init_ok init = true /\
  result_of (dispatch_loop pre
    (globals_of (InitPeripheralsAndHandlers init initial_globals))) = false.
Proof.
  intros Hrun.
  pose proof (run_main_phases (mk_Input init pre td)) as Hmain.
  cbv zeta in Hmain. simpl in_init in Hmain. simpl in_schedule in Hmain.
  destruct (init_summary init) as (R & _). cbv zeta in R.
  rewrite R in Hmain. rewrite Hmain in Hrun. clear Hmain.
  destruct (init_ok init).
  - split; [reflexivity|]. simpl negb in Hrun. cbv iota in Hrun.
    now destruct (result_of (dispatch_loop pre _)).
  - simpl negb in Hrun. cbv iota in Hrun.
    rewrite dispatch_loop_exit in Hrun by reflexivity. discriminate.
Qed.

(** When the loop reaches a pass that requests termination, [main] goes
    through teardown and returns 0, without looking at later passes. *)
Lemma main_stops init pre it rest td :
  result_of (run_main (mk_Input init pre td)) = None ->
  requests_termination it = true ->
  let out := run_main (mk_Input init (pre ++ it :: rest) td) in
  out = run_main (mk_Input init (pre ++ [it]) td) /\
  result_of out = Some 0 /\
  wait_calls (events_of out) = S (List.length pre).
Proof.
  intros Hrun Hreq out.
  destruct (still_running init pre td Hrun) as [Hok Hpre].
  assert (Hmain : forall rest',
    run_main (mk_Input init (pre ++ it :: rest') td) =
    let i := InitPeripheralsAndHandlers init initial_globals in
    let lp := dispatch_loop pre (globals_of i) in
    let body := loop_body it (globals_of lp) in
    (Some 0, globals_of body,
     EvLog_Debug "Blink application starting.\n"
       :: events_of i ++ (events_of lp ++ events_of body) ++
          events_of (ClosePeripheralsAndHandlers td (globals_of body)) ++
          [EvLog_Debug "Application exiting.\n"])).
  { intros rest'. rewrite run_main_phases. cbv zeta.
    simpl in_init. simpl in_schedule. simpl in_teardown.
    destruct (init_summary init) as (R & _). cbv zeta in R.
    rewrite R, Hok. simpl negb. cbv iota.
    rewrite (dispatch_loop_stops pre it rest' _ Hpre Hreq).
    now rewrite result_of_triple, globals_of_triple, events_of_triple. }
  split; [unfold out; now rewrite (Hmain rest), (Hmain [])|].
  split; [unfold out; now rewrite (Hmain rest)|].
  unfold out. rewrite (Hmain rest). cbv zeta. rewrite events_of_triple.
  change (wait_calls (EvLog_Debug ?m :: ?r)) with (wait_calls r).
  rewrite !wait_calls_app.
  destruct (init_summary init) as (_ & _ & _ & Wi & _). cbv zeta in Wi.
  destruct (dispatch_loop_steady pre
              (globals_of (InitPeripheralsAndHandlers init initial_globals)))
    as (_ & _ & _ & _ & Wl).
  destruct (loop_body_steady it
              (globals_of (dispatch_loop pre
                 (globals_of (InitPeripheralsAndHandlers init initial_globals)))))
    as (_ & _ & _ & Wb & _).
  destruct (teardown_summary td
              (globals_of (loop_body it (globals_of (dispatch_loop pre
                 (globals_of (InitPeripheralsAndHandlers init initial_globals)))))))
    as (_ & _ & Wt & _).
  cbv zeta in Wl, Wb, Wt.
  rewrite Wi, (Wl Hpre), Wb, Wt. change (wait_calls [EvLog_Debug "Application exiting.\n"]) with 0%nat. lia.
Qed.

Lemma failed_read_requests it l1 r l2 :
  it_wait it = Wait_ready (l1 ++ Ready_button r :: l2) ->
  poll_consume r = 0 -> poll_read r <> 0 ->
  requests_termination it = true.
Proof.
  intros Hw Hc Hr. unfold requests_termination. rewrite Hw.
  apply orb_true_iff. right.
  rewrite existsb_app. apply orb_true_iff. right.
  simpl. now rewrite Hc, (nonzero_test _ Hr).
Qed.

(** C5: a poll-timer firing whose line read fails sets the termination
    flag and returns without emitting a press, without rearming and
    without touching the stored button level or the index.  When such a
    firing occurs in a pass of the running loop, that pass is the last:
    no later wait is made, whatever the schedule holds; [main] runs
    teardown, whose first action is to write High, the safe level, to the
    output line before anything is closed, and returns.  If that write
    succeeds the line is High at exit. *)
Theorem failed_read_ends_program
    (init : InitEnv) (pre rest : list Iteration) (it : Iteration)
    (td : TeardownEnv) (l1 l2 : list Ready) (r : ButtonFiring) (g : Globals) :
  poll_consume r = 0 -> poll_read r <> 0 ->
  it_wait it = Wait_ready (l1 ++ Ready_button r :: l2) ->
  result_of (run_main (mk_Input init pre td)) = None ->
  let h := ButtonTimerEventHandler r g in
  let out := run_main (mk_Input init (pre ++ it :: rest) td) in
  (terminationRequired (globals_of h) = true /\
   buttonState (globals_of h) = buttonState g /\
   blinkIntervalIndex (globals_of h) = blinkIntervalIndex g /\
   press_events (events_of h) = 0%nat /\
   rearm_periods (events_of h) = []) /\
  out = run_main (mk_Input init (pre ++ [it]) td) /\
  result_of out = Some 0 /\
  wait_calls (events_of out) = S (List.length pre) /\
  terminationRequired (globals_of out) = true /\
  (exists before after,
     events_of out =
       before ++
       EvGPIO_SetValue (init_ledGpio init) GPIO_Value_High (td_write td) :: after /\
     closed_fds before = [] /\ written_levels after = []) /\
  (td_write td = 0 -> line_level None (events_of out) = Some GPIO_Value_High).
Proof.
  intros Hc Hr Hw Hrun h out.
  split.
  { subst h. rewrite ButtonTimerEventHandler_run. cbv zeta.
    rewrite Hc, (nonzero_test _ Hr). simpl. repeat split. }
  pose proof (failed_read_requests it l1 r l2 Hw Hc Hr) as Hreq.
  destruct (main_stops init pre it rest td Hrun Hreq) as (Hsame & Hres & Hwait).
  cbv zeta in Hsame, Hres, Hwait. fold out in Hsame, Hres, Hwait.
  destruct (still_running init pre td Hrun) as [Hok _].
  destruct (exit_after_successful_init
              (mk_Input init (pre ++ it :: rest) td) Hok Hres)
    as (Hflag & _ & _ & before & after & Hev & Hb & Ha & Hl).
  cbv zeta in Hflag, Hev. simpl in_init in Hev. simpl in_teardown in Hev.
  fold out in Hflag, Hev.
  repeat split; auto.
  - exists before, after. auto.
  - intros Hz. rewrite Hev, line_level_app. simpl. rewrite Hz. simpl.
    apply Hl.
Qed.

Lemma failed_read_ends_program_witness :
  let failing := mk_ButtonFiring 0 (-1) GPIO_Value_Low 0 in
  let out := run_main (mk_Input sample_init
                         ([pass [blink]] ++ pass [blink; Ready_button failing]
                            :: [pass four_presses])
                         sample_teardown) in
  result_of out = Some 0 /\
  wait_calls (events_of out) = 2%nat /\
  buttonState (globals_of out) = GPIO_Value_High /\
  line_level None (events_of out) = Some GPIO_Value_High.
Proof.
  destruct (failed_read_ends_program sample_init [pass [blink]] [pass four_presses]
              (pass [blink; Ready_button (mk_ButtonFiring 0 (-1) GPIO_Value_Low 0)])
              sample_teardown [blink] [] (mk_ButtonFiring 0 (-1) GPIO_Value_Low 0)
              initial_globals)
    as (_ & _ & Hres & Hwait & _ & _ & Hline);
    try solve [reflexivity | discriminate].
  split; [exact Hres|]. split; [exact Hwait|]. split; [reflexivity|].
  apply Hline. reflexivity.
Defined.

(** C8: the exit code is 0 on every path.  Whenever [main] returns, it
    returns 0; it does return 0 when initialisation fails, and it does
    return 0 once the loop meets a pass that requests termination: a
    SIGTERM, a failed wait, or a firing in which a checked call fails. *)
Theorem exit_code_is_always_zero (input : Input) :
  (forall code, result_of (run_main input) = Some code -> code = 0) /\
  (init_ok (in_init input) = false -> result_of (run_main input) = Some 0) /\
  (forall it rest,
     requests_termination it = true ->
     result_of (run_main (mk_Input (in_init input)
                            (in_schedule input ++ it :: rest)
                            (in_teardown input))) = Some 0).
Proof.
  split; [|split].
  - intros code H. rewrite run_main_phases in H. cbv zeta in H.
    destruct (result_of (dispatch_loop _ _)) in H.
    + rewrite result_of_triple in H. congruence.
    + discriminate.
  - intros Hbad. rewrite run_main_phases. cbv zeta.
    destruct (init_summary (in_init input)) as (R & _). cbv zeta in R.
    rewrite R, Hbad. simpl negb. cbv iota.
    now rewrite dispatch_loop_exit.
  - intros it rest Hreq. rewrite run_main_phases. cbv zeta.
    simpl in_schedule.
    now rewrite (dispatch_loop_terminates (in_schedule input) it rest _ Hreq).
Qed.

Lemma exit_code_is_always_zero_witness :
  result_of (run_main (mk_Input sample_init ([pass [blink]] ++ sigterm_pass :: [])
                         sample_teardown)) = Some 0 /\
  result_of (run_main (mk_Input (mk_InitEnv false 3 (-1) 5 6 7 8) [pass [blink]]
                         sample_teardown)) = Some 0 /\
  result_of (run_main (mk_Input sample_init
                         ([pass [blink]] ++
                          pass [Ready_blink (mk_BlinkFiring 0 (-1))] :: [pass [blink]])
                         sample_teardown)) = Some 0 /\
  result_of (run_main (mk_Input sample_init
                         ([pass [blink]] ++ mk_Iteration false Wait_failed :: [])
                         sample_teardown)) = Some 0.
Proof.
  pose proof (exit_code_is_always_zero
                (mk_Input sample_init [pass [blink]] sample_teardown))
    as (_ & _ & Hloop).
  pose proof (exit_code_is_always_zero
                (mk_Input (mk_InitEnv false 3 (-1) 5 6 7 8) [pass [blink]]
                   sample_teardown))
    as (_ & Hinit & _).
  split; [|split; [|split]].
  - exact (Hloop sigterm_pass [] eq_refl).
  - exact (Hinit eq_refl).
  - exact (Hloop (pass [Ready_blink (mk_BlinkFiring 0 (-1))]) [pass [blink]] eq_refl).
  - exact (Hloop (mk_Iteration false Wait_failed) [] eq_refl).
Defined.

(** ** The index over a whole run *)

Lemma advances_in_table i evs i' :
  advances i evs i' -> 0 <= i' < numBlinkIntervals.
Proof.
  intros [E _]. rewrite E. apply Z.mod_pos_bound. reflexivity.
Qed.

Lemma loop_body_advances it g :
  0 <= blinkIntervalIndex g < numBlinkIntervals ->
  advances (blinkIntervalIndex g) (events_of (loop_body it g))
    (blinkIntervalIndex (globals_of (loop_body it g))).
Proof.
  intros Hi. rewrite loop_body_run. cbv zeta.
  set (g0 := if it_sigterm it then with_terminationRequired true g else g).
  assert (E0 : blinkIntervalIndex g0 = blinkIntervalIndex g)
    by (subst g0; now destruct (it_sigterm it)).
  destruct (it_wait it) as [| |l];
    rewrite globals_of_triple, events_of_triple.
  - simpl blinkIntervalIndex. rewrite E0. now apply advances_still.
  - rewrite E0. now apply advances_still.
  - rewrite <- E0 in Hi |- *.
    change (EvWait (epollFd g) 0 :: events_of (call_handlers l g0))
      with ([EvWait (epollFd g) 0] ++ events_of (call_handlers l g0)).
    eapply advances_app; [now apply advances_still|].
    exact (index_after_handlers l g0 Hi).
Qed.

Lemma dispatch_loop_advances sched : forall g,
  0 <= blinkIntervalIndex g < numBlinkIntervals ->
  advances (blinkIntervalIndex g) (events_of (dispatch_loop sched g))
    (blinkIntervalIndex (globals_of (dispatch_loop sched g))).
Proof.
  induction sched as [|it rest IH]; intros g Hi;
    destruct (terminationRequired g) eqn:Ht.
  - rewrite dispatch_loop_exit by assumption. now apply advances_still.
  - rewrite dispatch_loop_nil by assumption. now apply advances_still.
  - rewrite dispatch_loop_exit by assumption. now apply advances_still.
  - rewrite dispatch_loop_cons by assumption. cbv zeta.
    rewrite globals_of_triple, events_of_triple.
    pose proof (loop_body_advances it g Hi) as Hb.
    eapply advances_app; [exact Hb|].
    apply IH. exact (advances_in_table _ _ _ Hb).
Qed.

Lemma init_no_rearm env :
  rearm_periods (events_of (InitPeripheralsAndHandlers env initial_globals)) = [].
Proof.
  destruct env as [sg e b p l t i].
  remember (InitPeripheralsAndHandlers (mk_InitEnv sg e b p l t i) initial_globals)
    as o eqn:Ho.
  unfold InitPeripheralsAndHandlers in Ho; unfold_calls_in Ho.
  simpl in Ho.
  destruct sg; simpl in Ho;
    repeat match type of Ho with
    | context [if ?z <? 0 then _ else _] => destruct (z <? 0) eqn:?; simpl in Ho
    end.
  all: subst o; reflexivity.
Qed.

(** From the initial state, the index at any point where [main] stops is
    the number of presses so far modulo the table length. *)
Lemma run_main_advances input :
  advances 0 (events_of (run_main input))
    (blinkIntervalIndex (globals_of (run_main input))).
Proof.
  rewrite run_main_phases. cbv zeta.
  destruct (init_summary (in_init input)) as (_ & _ & _ & _ & Pi & Ii & _).
  cbv zeta in Pi, Ii.
  set (i := InitPeripheralsAndHandlers (in_init input) initial_globals) in *.
  set (g1 := if negb (result_of i =? 0)
             then with_terminationRequired true (globals_of i) else globals_of i).
  assert (I1 : blinkIntervalIndex g1 = 0)
    by (subst g1; now destruct (negb (result_of i =? 0))).
  assert (H0 : 0 <= 0 < numBlinkIntervals) by (unfold numBlinkIntervals; lia).
  assert (Hinit : advances 0 (events_of i) 0)
    by (apply advances_still; auto; apply init_no_rearm).
  pose proof (dispatch_loop_advances (in_schedule input) g1) as Hloop.
  rewrite I1 in Hloop. specialize (Hloop H0).
  set (lp := dispatch_loop (in_schedule input) g1) in *.
  pose proof (advances_in_table _ _ _ Hloop) as Hin.
  change (EvLog_Debug "Blink application starting.\n" :: ?r)
    with ([EvLog_Debug "Blink application starting.\n"] ++ r).
  destruct (result_of lp);
    rewrite globals_of_triple, events_of_triple.
  - eapply advances_app; [now apply advances_still|].
    eapply advances_app; [exact Hinit|].
    eapply advances_app; [exact Hloop|].
    rewrite ClosePeripheralsAndHandlers_run, events_of_triple.
    destruct (teardown_closes_inert (in_teardown input) (globals_of lp))
      as (_ & _ & P & _).
    assert (R : rearm_periods (teardown_closes (in_teardown input) (globals_of lp)) = []).
    { unfold teardown_closes. rewrite !rearm_periods_app.
      now repeat match goal with
          | |- context [rearm_periods (close_log ?fd ?res)] =>
              let H := fresh in
              destruct (close_log_inert fd res) as (_ & _ & _ & _ & H & _);
              rewrite H; clear H
          end. }
    apply advances_still; [exact Hin| |].
    + rewrite !press_events_app.
      change (press_events (EvLog_Debug ?m :: ?r)) with (press_events r).
      rewrite P. now destruct (0 <=? blinkingLedGpioFd (globals_of lp)).
    + rewrite !rearm_periods_app.
      change (rearm_periods (EvLog_Debug ?m :: ?r)) with (rearm_periods r).
      rewrite R. now destruct (0 <=? blinkingLedGpioFd (globals_of lp)).
  - eapply advances_app; [now apply advances_still|].
    eapply advances_app; [exact Hinit|exact Hloop].
Qed.

(** C3: starting from blink-interval index 0, after any sequence of
    handler invocations that emits N presses the index is N mod 3, and the
    k-th press rearms the blink timer to the table entry at k mod 3, the
    index it has just set; with 4 presses the index is 1 and the last
    rearm sets 250 ms.  The same holds of every run of [main], whose
    initial state has index 0. *)
Theorem index_is_presses_mod_3 (g : Globals) (l : list Ready) :
  blinkIntervalIndex g = 0 ->
  let out := call_handlers l g in
  let N := press_events (events_of out) in
  blinkIntervalIndex (globals_of out) = Z.of_nat N mod numBlinkIntervals /\
  rearm_periods (events_of out) =
    map (fun k => blinkIntervals_at (Z.of_nat k mod numBlinkIntervals)) (seq 1 N) /\
  (N = 4%nat ->
   blinkIntervalIndex (globals_of out) = 1 /\
   last (rearm_periods (events_of out)) (mk_timespec 0 0) =
     mk_timespec 0 250000000) /\
  (forall input,
     let run := run_main input in
     let P := press_events (events_of run) in
     blinkIntervalIndex (globals_of run) = Z.of_nat P mod numBlinkIntervals /\
     rearm_periods (events_of run) =
       map (fun k => blinkIntervals_at (Z.of_nat k mod numBlinkIntervals))
           (seq 1 P)).
Proof.
  intros H0 out N.
  assert (Hi : 0 <= blinkIntervalIndex g < numBlinkIntervals)
    by (rewrite H0; unfold numBlinkIntervals; lia).
  destruct (index_after_handlers l g Hi) as [E1 E2].
  rewrite H0 in E1, E2. cbv zeta in E1, E2. fold out in E1, E2. fold N in E1, E2.
  simpl Z.add in E1, E2.
  split; [exact E1|]. split; [exact E2|]. split.
  - intros H. rewrite E1, E2, H. split; reflexivity.
  - intros input. exact (run_main_advances input).
Qed.

Lemma index_is_presses_mod_3_witness :
  let out := call_handlers four_presses initial_globals in
  press_events (events_of out) = 4%nat /\
  blinkIntervalIndex (globals_of out) = 1 /\
  rearm_periods (events_of out) =
    [mk_timespec 0 250000000; mk_timespec 0 500000000;
     mk_timespec 0 125000000; mk_timespec 0 250000000] /\
  last (rearm_periods (events_of out)) (mk_timespec 0 0) = mk_timespec 0 250000000.
Proof.
  pose proof (index_is_presses_mod_3 initial_globals four_presses eq_refl) as H.
  cbv zeta in H. destruct H as (H1 & H2 & H3 & _).
  split; [reflexivity|]. split; [exact H1|]. split; [exact H2|].
  apply H3. reflexivity.
Defined.

(** * Further properties of the program *)

(** ** The termination flag *)

Lemma eventHandler_ok_keeps_flag x g :
  firing_ok x = true ->
  terminationRequired (globals_of (eventHandler x g)) = terminationRequired g.
Proof.
  destruct x as [r|r]; simpl; intros H.
  - apply andb_true_iff in H. destruct H as [H Hre].
    apply andb_true_iff in H. destruct H as [Hc Hr].
    rewrite ButtonTimerEventHandler_run. cbv zeta.
    rewrite Hc, Hr, Hre. simpl.
    destruct (GPIO_Value_eqb (poll_level r) (buttonState g)); [reflexivity|].
    destruct (GPIO_Value_eqb (poll_level r) GPIO_Value_Low); reflexivity.
  - apply andb_true_iff in H. destruct H as [Hc Hw].
    rewrite BlinkingLedTimerEventHandler_run. cbv zeta.
    rewrite Hc, Hw. reflexivity.
Qed.

Lemma call_handlers_ok_keeps_flag l : forall g,
  forallb firing_ok l = true ->
  terminationRequired (globals_of (call_handlers l g)) = terminationRequired g.
Proof.
  induction l as [|x l IH]; intros g H; [reflexivity|].
  simpl in H. apply andb_true_iff in H. destruct H as [Hx Hl].
  rewrite call_handlers_cons_globals, IH by assumption.
  now apply eventHandler_ok_keeps_flag.
Qed.

Lemma loop_body_ok_keeps_flag it g :
  pass_ok it = true ->
  terminationRequired (globals_of (loop_body it g)) = terminationRequired g.
Proof.
  unfold pass_ok. intros H. apply andb_true_iff in H. destruct H as [Hs Hw].
  rewrite loop_body_run. cbv zeta.
  destruct (it_sigterm it); [discriminate|].
  destruct (it_wait it) as [| |l]; [discriminate|reflexivity|].
  rewrite globals_of_triple. now apply call_handlers_ok_keeps_flag.
Qed.

Lemma dispatch_loop_ok_runs sched : forall g,
  forallb pass_ok sched = true ->
  terminationRequired g = false ->
  result_of (dispatch_loop sched g) = false.
Proof.
  induction sched as [|it rest IH]; intros g H Ht.
  - now rewrite dispatch_loop_nil.
  - simpl in H. apply andb_true_iff in H. destruct H as [Hit Hrest].
    rewrite dispatch_loop_cons by assumption. cbv zeta.
    rewrite result_of_triple. apply IH; [assumption|].
    now rewrite loop_body_ok_keeps_flag.
Qed.

(** X1: the termination flag is never cleared.  Once it is set, every
    handler, every pass of the loop and the loop itself leave it set, and
    the loop makes no further pass.  At the end of any run [main] has
    returned exactly when the flag is set. *)
Theorem termination_flag_is_sticky
    (g : Globals) (l : list Ready) (it : Iteration) (sched : list Iteration)
    (input : Input) :
  (terminationRequired g = true ->
   terminationRequired (globals_of (call_handlers l g)) = true /\
   terminationRequired (globals_of (loop_body it g)) = true /\
   dispatch_loop sched g = (true, g, [])) /\
  (result_of (run_main input) = Some 0 <->
   terminationRequired (globals_of (run_main input)) = true) /\
  (result_of (run_main input) = None <->
   terminationRequired (globals_of (run_main input)) = false).
Proof.
  split.
  - intros Ht.
    destruct (call_handlers_steady l g) as (_ & _ & Th).
    destruct (loop_body_steady it g) as (_ & _ & _ & _ & Tb & _).
    split; [exact (Th Ht)|]. split; [exact (Tb Ht)|].
    now apply dispatch_loop_exit.
  - rewrite run_main_phases. cbv zeta.
    match goal with
    | |- context [dispatch_loop ?s ?g1] =>
        destruct (dispatch_loop_steady s g1) as (_ & _ & _ & R & _);
        cbv zeta in R;
        destruct (result_of (dispatch_loop s g1))
    end; rewrite result_of_triple, globals_of_triple, <- R;
      split; split; intros H; solve [reflexivity | discriminate H].
Qed.

Lemma termination_flag_is_sticky_witness :
  let g := with_terminationRequired true initial_globals in
  terminationRequired (globals_of (call_handlers four_presses g)) = true /\
  terminationRequired (globals_of (loop_body (pass [blink]) g)) = true /\
  dispatch_loop [pass [blink]; pass four_presses] g = (true, g, []).
Proof.
  apply (termination_flag_is_sticky (with_terminationRequired true initial_globals)
           four_presses (pass [blink]) [pass [blink]; pass four_presses]
           (mk_Input sample_init [] sample_teardown)).
  reflexivity.
Defined.

(** X2: a healthy run never leaves the loop.  When every acquisition
    succeeds, no SIGTERM arrives and every pass is an interrupted wait or
    serves firings whose calls all succeed, [main] is still in its loop at
    the end of the schedule: it has waited once per pass, the flag is
    clear and nothing has been closed. *)
Theorem healthy_run_keeps_running (input : Input) :
  init_ok (in_init input) = true ->
  init_sigterm (in_init input) = false ->
  forallb pass_ok (in_schedule input) = true ->
  let out := run_main input in
  result_of out = None /\
  terminationRequired (globals_of out) = false /\
  wait_calls (events_of out) = List.length (in_schedule input) /\
  closed_fds (events_of out) = [].
Proof.
  intros Hok Hsig Hsched out. subst out.
  rewrite run_main_phases. cbv zeta.
  destruct (init_summary (in_init input))
    as (R & _ & Cl & Wi & _ & _ & T & _).
  cbv zeta in R, Cl, Wi, T. rewrite R, Hok. simpl negb. cbv iota.
  rewrite Hsig in T.
  pose proof (dispatch_loop_ok_runs (in_schedule input) _ Hsched T) as Hrun.
  destruct (dispatch_loop_steady (in_schedule input)
              (globals_of (InitPeripheralsAndHandlers (in_init input) initial_globals)))
    as (_ & _ & Lc & Lr & Lw).
  cbv zeta in Lc, Lr, Lw. rewrite Hrun in *.
  rewrite result_of_triple, globals_of_triple, events_of_triple.
  split; [reflexivity|]. split; [now rewrite <- Lr|].
  change (wait_calls (EvLog_Debug ?m :: ?r)) with (wait_calls r).
  change (closed_fds (EvLog_Debug ?m :: ?r)) with (closed_fds r).
  rewrite wait_calls_app, closed_fds_app, Wi, Cl, Lc, (Lw eq_refl).
  split; reflexivity.
Qed.

Lemma healthy_run_keeps_running_witness :
  let out := run_main (mk_Input sample_init
                         [pass [blink]; mk_Iteration false Wait_interrupted;
                          pass four_presses] sample_teardown) in
  result_of out = None /\
  terminationRequired (globals_of out) = false /\
  wait_calls (events_of out) = 3%nat /\
  closed_fds (events_of out) = [].
Proof.
  apply (healthy_run_keeps_running
           (mk_Input sample_init
              [pass [blink]; mk_Iteration false Wait_interrupted;
               pass four_presses] sample_teardown));
    reflexivity.
Defined.

(** ** Sequences of firings, failures included *)

Lemma toggles_written (s : GPIO_Value_Type) (n : nat) :
  toggle s :: map (fun k => Nat.iter k toggle (toggle s)) (seq 1 n) =
  map (fun k => Nat.iter k toggle s) (seq 1 (S n)).
Proof.
  change (seq 1 (S n)) with (1%nat :: seq 2 n).
  rewrite <- (seq_shift n 1), map_cons, map_map. simpl Nat.iter at 2. f_equal.
  apply map_ext. intros k. now rewrite <- Nat.iter_succ_r.
Qed.

(** X3: over any sequence of blink-timer firings, whatever their calls
    return, the stored output level is toggled once per firing that is
    consumed, whether or not its write succeeds, and not at all by a
    firing whose consume fails; the levels handed to [GPIO_SetValue] are
    the successive toggles, one per consumed firing.  The blink handler
    never touches the button level or the blink-interval index. *)
Theorem blink_toggles_per_consumed_firing (rs : list BlinkFiring) : forall g,
  let run := call_handlers (map Ready_blink rs) g in
  ledState (globals_of run) = Nat.iter (consumed rs) toggle (ledState g) /\
  written_levels (events_of run) =
    map (fun k => Nat.iter k toggle (ledState g)) (seq 1 (consumed rs)) /\
  buttonState (globals_of run) = buttonState g /\
  blinkIntervalIndex (globals_of run) = blinkIntervalIndex g /\
  press_events (events_of run) = 0%nat /\
  rearm_periods (events_of run) = [].
Proof.
  induction rs as [|r rs IH]; intros g; cbv zeta.
  - now repeat split.
  - simpl map.
    rewrite call_handlers_cons_globals, call_handlers_cons_events.
    rewrite written_levels_app, press_events_app, rearm_periods_app.
    simpl eventHandler.
    destruct (IH (globals_of (BlinkingLedTimerEventHandler r g)))
      as (L & W & B & I & P & R).
    cbv zeta in L, W, B, I, P, R. rewrite L, W, B, I, P, R. clear L W B I P R.
    unfold consumed. simpl filter.
    rewrite BlinkingLedTimerEventHandler_run. cbv zeta.
    destruct (blink_consume r =? 0); simpl negb; cbv iota.
    + fold (consumed rs). simpl List.length.
      destruct (negb (blink_write r =? 0));
        rewrite globals_of_triple, events_of_triple; simpl;
        rewrite toggles_written, <- Nat.iter_succ_r; now repeat split.
    + fold (consumed rs). rewrite globals_of_triple, events_of_triple.
      now repeat split.
Qed.

Lemma last_cons_default {A} (l : list A) : forall x d,
  last (x :: l) d = last l x.
Proof.
  induction l as [|y l IH]; intros x d; [reflexivity|].
  change (last (x :: y :: l) d) with (last (y :: l) d).
  now rewrite !IH.
Qed.

(** X4: over any sequence of poll-timer firings, whatever their calls
    return, the number of presses emitted is the number of High-to-Low
    steps in the sequence of levels seen by the firings that are consumed
    and read the line without error, starting from the stored level; a
    firing whose consume or read fails is skipped.  The stored level ends
    as the last level so seen, every press makes exactly one rearm call,
    and the button handler never writes the output line nor touches the
    stored output level. *)
Theorem presses_are_falling_edges (rs : list ButtonFiring) : forall g,
  let run := call_handlers (map Ready_button rs) g in
  press_events (events_of run) = falling_edges (buttonState g) (levels_read rs) /\
  buttonState (globals_of run) = last (levels_read rs) (buttonState g) /\
  List.length (rearm_periods (events_of run)) = press_events (events_of run) /\
  written_levels (events_of run) = [] /\
  ledState (globals_of run) = ledState g.
Proof.
  induction rs as [|r rs IH]; intros g; cbv zeta.
  - now repeat split.
  - simpl map.
    rewrite call_handlers_cons_globals, call_handlers_cons_events.
    rewrite written_levels_app, press_events_app, rearm_periods_app, length_app.
    simpl eventHandler.
    destruct (IH (globals_of (ButtonTimerEventHandler r g)))
      as (P & B & R & W & L).
    cbv zeta in P, B, R, W, L. rewrite R, P, B, W, L. clear P B R W L.
    unfold levels_read. simpl filter.
    rewrite ButtonTimerEventHandler_run. cbv zeta.
    destruct (poll_consume r =? 0); simpl negb; simpl andb; cbv iota;
      [destruct (poll_read r =? 0); simpl negb; cbv iota|].
    + fold (levels_read rs). simpl map. rewrite last_cons_default.
      simpl falling_edges.
      destruct (poll_level r), (buttonState g) eqn:Hb; simpl;
        try destruct (negb (poll_rearm r =? 0));
        rewrite ?globals_of_triple, ?events_of_triple; simpl; rewrite ?Hb;
        now repeat split.
    + fold (levels_read rs). rewrite globals_of_triple, events_of_triple.
      now repeat split.
    + fold (levels_read rs). rewrite globals_of_triple, events_of_triple.
      now repeat split.
Qed.

(** X5: the two handlers do not interfere.  When both sources are ready,
    the calls each handler makes are the same whether or not the other
    has run first, and the state after both is the same in either
    order. *)
Theorem handlers_commute (rb : ButtonFiring) (rl : BlinkFiring) (g : Globals) :
  events_of (ButtonTimerEventHandler rb (globals_of (BlinkingLedTimerEventHandler rl g)))
    = events_of (ButtonTimerEventHandler rb g) /\
  events_of (BlinkingLedTimerEventHandler rl (globals_of (ButtonTimerEventHandler rb g)))
    = events_of (BlinkingLedTimerEventHandler rl g) /\
  globals_of (call_handlers [Ready_button rb; Ready_blink rl] g) =
  globals_of (call_handlers [Ready_blink rl; Ready_button rb] g).
Proof.
  rewrite !call_handlers_cons_globals. simpl eventHandler. simpl call_handlers.
  unfold ret. rewrite !globals_of_triple.
  rewrite (BlinkingLedTimerEventHandler_run rl g),
          (ButtonTimerEventHandler_run rb g). cbv zeta.
  destruct (negb (blink_consume rl =? 0)) eqn:Hbc;
    [|destruct (negb (blink_write rl =? 0)) eqn:Hbw];
    (destruct (negb (poll_consume rb =? 0)) eqn:Hpc;
     [|destruct (negb (poll_read rb =? 0)) eqn:Hpr;
       [|destruct (GPIO_Value_eqb (poll_level rb) (buttonState g)) eqn:Hsame;
         [|destruct (GPIO_Value_eqb (poll_level rb) GPIO_Value_Low) eqn:Hlow;
           [destruct (negb (poll_rearm rb =? 0)) eqn:Hre|]]]]);
    rewrite !globals_of_triple, !events_of_triple;
    rewrite ButtonTimerEventHandler_run, BlinkingLedTimerEventHandler_run;
    cbv zeta; simpl;
    rewrite ?Hbc, ?Hbw, ?Hpc, ?Hpr, ?Hsame, ?Hlow, ?Hre; simpl;
    repeat split.
Qed.

(** ** What holds while the loop is running *)

(** A handler that leaves the flag clear found it clear. *)
Lemma flag_was_clear x g :
  terminationRequired (globals_of (eventHandler x g)) = false ->
  terminationRequired g = false.
Proof.
  intros H. destruct (terminationRequired g) eqn:Ht; [|reflexivity].
  destruct (eventHandler_steady x g) as (_ & _ & T). rewrite (T Ht) in H.
  discriminate.
Qed.

Section RunningInvariant.

(** A relation between the log so far and the state that every handler
    keeps when it ends with the flag clear, and that a wait keeps. *)
Variable Inv : list Event -> Globals -> Prop.

Hypothesis Inv_handler : forall x hist g,
  Inv hist g ->
  terminationRequired (globals_of (eventHandler x g)) = false ->
  Inv (hist ++ events_of (eventHandler x g)) (globals_of (eventHandler x g)).

Hypothesis Inv_wait : forall hist g epfd res,
  Inv hist g -> Inv (hist ++ [EvWait epfd res]) g.

Lemma call_handlers_running l : forall hist g,
  Inv hist g ->
  terminationRequired (globals_of (call_handlers l g)) = false ->
  Inv (hist ++ events_of (call_handlers l g)) (globals_of (call_handlers l g)).
Proof.
  induction l as [|x l IH]; intros hist g HI Hf.
  - simpl. now rewrite app_nil_r.
  - rewrite call_handlers_cons_globals in Hf |- *.
    rewrite call_handlers_cons_events, app_assoc.
    apply IH; [|exact Hf].
    apply Inv_handler; [exact HI|].
    destruct (terminationRequired (globals_of (eventHandler x g))) eqn:Hx;
      [|reflexivity].
    destruct (call_handlers_steady l (globals_of (eventHandler x g)))
      as (_ & _ & T).
    rewrite (T Hx) in Hf. discriminate.
Qed.

Lemma loop_body_running it hist g :
  Inv hist g ->
  terminationRequired (globals_of (loop_body it g)) = false ->
  Inv (hist ++ events_of (loop_body it g)) (globals_of (loop_body it g)).
Proof.
  intros HI. rewrite loop_body_run. cbv zeta.
  destruct (it_sigterm it).
  - intros Hf. exfalso.
    destruct (it_wait it) as [| |l]; rewrite globals_of_triple in Hf;
      try discriminate.
    destruct (call_handlers_steady l (with_terminationRequired true g))
      as (_ & _ & T).
    rewrite (T eq_refl) in Hf. discriminate.
  - destruct (it_wait it) as [| |l];
      rewrite globals_of_triple, events_of_triple; intros Hf.
    + discriminate.
    + now apply Inv_wait.
    + change (EvWait (epollFd g) 0 :: events_of (call_handlers l g))
        with ([EvWait (epollFd g) 0] ++ events_of (call_handlers l g)).
      rewrite app_assoc. apply call_handlers_running; [|exact Hf].
      now apply Inv_wait.
Qed.

Lemma dispatch_loop_running sched : forall hist g,
  Inv hist g ->
  result_of (dispatch_loop sched g) = false ->
  Inv (hist ++ events_of (dispatch_loop sched g))
      (globals_of (dispatch_loop sched g)).
Proof.
  induction sched as [|it rest IH]; intros hist g HI Hr;
    destruct (terminationRequired g) eqn:Ht.
  - rewrite dispatch_loop_exit in Hr by assumption. discriminate.
  - rewrite dispatch_loop_nil by assumption. simpl. now rewrite app_nil_r.
  - rewrite dispatch_loop_exit in Hr by assumption. discriminate.
  - rewrite dispatch_loop_cons in Hr |- * by assumption. cbv zeta in Hr |- *.
    rewrite result_of_triple in Hr.
    rewrite globals_of_triple, events_of_triple, app_assoc.
    apply IH; [|exact Hr].
    apply loop_body_running; [exact HI|].
    destruct (terminationRequired (globals_of (loop_body it g))) eqn:Hb;
      [|reflexivity].
    rewrite dispatch_loop_exit in Hr by assumption. discriminate.
Qed.

(** The relation holds at the end of any run that is still in its loop,
    if it holds when initialisation has succeeded. *)
Lemma run_main_running input :
  (init_ok (in_init input) = true ->
   Inv (EvLog_Debug "Blink application starting.\n"
          :: events_of (InitPeripheralsAndHandlers (in_init input) initial_globals))
       (globals_of (InitPeripheralsAndHandlers (in_init input) initial_globals))) ->
  result_of (run_main input) = None ->
  Inv (events_of (run_main input)) (globals_of (run_main input)).
Proof.
  intros Hinit Hrun. destruct input as [init sched td].
  destruct (still_running init sched td Hrun) as [Hok Hloop].
  simpl in_init in Hinit. specialize (Hinit Hok).
  rewrite run_main_phases. cbv zeta. simpl in_init. simpl in_schedule.
  destruct (init_summary init) as (R & _). cbv zeta in R.
  rewrite R, Hok. simpl negb. cbv iota. rewrite Hloop.
  rewrite globals_of_triple, events_of_triple.
  change (EvLog_Debug "Blink application starting.\n" :: ?a ++ ?b)
    with ((EvLog_Debug "Blink application starting.\n" :: a) ++ b).
  now apply dispatch_loop_running.
Qed.

End RunningInvariant.

(** More about the state and the log that initialisation leaves. *)
Lemma init_levels env :
  let out := InitPeripheralsAndHandlers env initial_globals in
  let g := globals_of out in
  ledState g = GPIO_Value_High /\
  buttonState g = GPIO_Value_High /\
  written_levels (events_of out) = [] /\
  (0 <=? blinkingLedGpioFd g) = led_opened env /\
  (init_ok env = true ->
   blink_period (events_of out) = Some (blinkIntervals_at 0)).
Proof.
  destruct env as [sg e b p l t i]. intros out g. subst g.
  remember out as o eqn:Ho. subst out.
  unfold InitPeripheralsAndHandlers in Ho; unfold_calls_in Ho.
  simpl in Ho.
  unfold init_ok, led_opened, blink_period. simpl.
  destruct sg; simpl in Ho;
    repeat match type of Ho with
    | context [if ?z <? 0 then _ else _] => destruct (z <? 0) eqn:?; simpl in Ho
    end.
  all: subst o; simpl.
  all: repeat match goal with
       | H : (_ <? 0) = false |- _ => apply not_negative in H
       | H : (_ <? 0) = true |- _ => apply negative in H
       end.
  all: repeat match goal with H : (0 <=? _) = _ |- _ => rewrite H end; simpl.
  all: repeat split; try reflexivity; try discriminate.
Qed.

Lemma line_level_cons s e evs : line_level s (e :: evs) = line_level (drive s e) evs.
Proof. reflexivity. Qed.

(** X6: while [main] is in its loop the stored output level is the level
    of the output line: a write that fails sets the flag and ends the
    loop, so a run still in its loop has seen every toggle reach the
    line.  And when [main] returns after a successful initialisation and
    the last write succeeds, the line is High whatever the stored level. *)
Theorem stored_level_mirrors_line (input : Input) :
  (result_of (run_main input) = None ->
   line_level None (events_of (run_main input)) =
     Some (ledState (globals_of (run_main input)))) /\
  (init_ok (in_init input) = true ->
   result_of (run_main input) = Some 0 ->
   td_write (in_teardown input) = 0 ->
   line_level None (events_of (run_main input)) = Some GPIO_Value_High).
Proof.
  split.
  - apply (run_main_running (fun hist g => line_level None hist = Some (ledState g))).
    + intros x hist g HI Hf. rewrite line_level_app, HI. clear HI.
      destruct x as [r|r]; simpl eventHandler in *.
      * rewrite ButtonTimerEventHandler_run. cbv zeta.
        repeat split_if; reflexivity.
      * rewrite BlinkingLedTimerEventHandler_run in Hf |- *. cbv zeta in Hf |- *.
        destruct (negb (blink_consume r =? 0)); [discriminate Hf|].
        destruct (negb (blink_write r =? 0)) eqn:Hw; [discriminate Hf|].
        apply negb_false_iff in Hw.
        rewrite globals_of_triple, events_of_triple. simpl. now rewrite Hw.
    + intros hist g epfd res HI. now rewrite line_level_app, HI.
    + intros Hok.
      destruct (init_summary (in_init input))
        as (_ & _ & _ & _ & _ & _ & _ & Hgood & _).
      destruct (Hgood Hok) as (_ & _ & _ & _ & Hline).
      destruct (init_levels (in_init input)) as (Hled & _).
      cbv zeta in Hline, Hled. rewrite Hled, line_level_cons. exact Hline.
  - intros Hok Hexit Hw.
    destruct (exit_after_successful_init input Hok Hexit)
      as (_ & _ & _ & before & after & Hev & _ & _ & Hl).
    cbv zeta in Hev. rewrite Hev, line_level_app, line_level_cons. simpl drive.
    rewrite Hw. simpl. apply Hl.
Qed.

Lemma stored_level_mirrors_line_witness :
  let running := run_main (mk_Input sample_init
                             [pass [blink]; pass [blink; blink]] sample_teardown) in
  let stopped := run_main (mk_Input sample_init
                             [pass [blink]; sigterm_pass] sample_teardown) in
  line_level None (events_of running) = Some GPIO_Value_Low /\
  ledState (globals_of stopped) = GPIO_Value_Low /\
  line_level None (events_of stopped) = Some GPIO_Value_High.
Proof.
  split; [|split].
  - apply (stored_level_mirrors_line
             (mk_Input sample_init [pass [blink]; pass [blink; blink]]
                sample_teardown)).
    reflexivity.
  - reflexivity.
  - apply (stored_level_mirrors_line
             (mk_Input sample_init [pass [blink]; sigterm_pass] sample_teardown));
      reflexivity.
Defined.

Lemma blink_period_app a b :
  blink_period (a ++ b) = fold_left period_step b (blink_period a).
Proof. apply fold_left_app. Qed.

Lemma blinkIntervals_at_in_table i :
  0 <= i < numBlinkIntervals -> In (blinkIntervals_at i) blinkIntervals.
Proof.
  unfold numBlinkIntervals. intros Hi.
  assert (H : i = 0 \/ i = 1 \/ i = 2) by lia.
  destruct H as [ -> | [ -> | -> ] ]; simpl; auto.
Qed.

(** X7: the table of blink intervals is never indexed out of bounds.  At
    the end of any run the index is within the table and every period
    handed to [SetTimerFdToPeriod] is one of its entries; and while
    [main] is in its loop, the period of the blink timer is the entry at
    the current index. *)
Theorem blink_period_follows_index (input : Input) :
  let out := run_main input in
  0 <= blinkIntervalIndex (globals_of out) < numBlinkIntervals /\
  Forall (fun p => In p blinkIntervals) (rearm_periods (events_of out)) /\
  (result_of out = None ->
   blink_period (events_of out) =
     Some (blinkIntervals_at (blinkIntervalIndex (globals_of out)))).
Proof.
  intros out. subst out.
  pose proof (run_main_advances input) as Hadv.
  split; [exact (advances_in_table _ _ _ Hadv)|]. split.
  - destruct Hadv as [_ R]. rewrite R. apply Forall_forall.
    intros p Hp. apply in_map_iff in Hp. destruct Hp as (k & <- & _).
    apply blinkIntervals_at_in_table. apply Z.mod_pos_bound. reflexivity.
  - apply (run_main_running
             (fun hist g => blink_period hist =
                            Some (blinkIntervals_at (blinkIntervalIndex g)))).
    + intros x hist g HI Hf. rewrite blink_period_app, HI. clear HI.
      destruct x as [r|r]; simpl eventHandler in *.
      * rewrite ButtonTimerEventHandler_run in Hf |- *. cbv zeta in Hf |- *.
        destruct (negb (poll_consume r =? 0)); [discriminate Hf|].
        destruct (negb (poll_read r =? 0)); [discriminate Hf|].
        destruct (GPIO_Value_eqb (poll_level r) (buttonState g)); [reflexivity|].
        destruct (GPIO_Value_eqb (poll_level r) GPIO_Value_Low); [|reflexivity].
        destruct (negb (poll_rearm r =? 0)) eqn:Hre; [discriminate Hf|].
        apply negb_false_iff in Hre.
        rewrite globals_of_triple, events_of_triple. simpl. now rewrite Hre.
      * rewrite BlinkingLedTimerEventHandler_run. cbv zeta.
        repeat split_if; reflexivity.
    + intros hist g epfd res HI. now rewrite blink_period_app, HI.
    + intros Hok.
      destruct (init_levels (in_init input)) as (_ & _ & _ & _ & Hp).
      destruct (init_summary (in_init input)) as (_ & _ & _ & _ & _ & Hi & _).
      cbv zeta in Hp, Hi. rewrite Hi.
      change (blink_period (EvLog_Debug ?m :: ?r)) with (blink_period r).
      exact (Hp Hok).
Qed.

Lemma blink_period_follows_index_witness :
  let out := run_main (mk_Input sample_init [pass [blink]; pass four_presses]
                         sample_teardown) in
  blinkIntervalIndex (globals_of out) = 1 /\
  blink_period (events_of out) = Some (mk_timespec 0 250000000).
Proof.
  destruct (blink_period_follows_index
              (mk_Input sample_init [pass [blink]; pass four_presses]
                 sample_teardown)) as (_ & _ & H).
  split; [reflexivity|]. apply H. reflexivity.
Defined.

(** ** Runs that never enter the loop *)

(** When the flag is set by the time the loop is reached, [main] goes
    straight from initialisation to teardown. *)
Lemma run_without_loop input :
  let i := InitPeripheralsAndHandlers (in_init input) initial_globals in
  init_ok (in_init input) = false \/ init_sigterm (in_init input) = true ->
  result_of (run_main input) = Some 0 /\
  same_fds (globals_of i) (globals_of (run_main input)) /\
  events_of (run_main input) =
    EvLog_Debug "Blink application starting.\n"
      :: events_of i ++
         events_of (ClosePeripheralsAndHandlers (in_teardown input) (globals_of i)) ++
         [EvLog_Debug "Application exiting.\n"].
Proof.
  intros i Hcase. rewrite run_main_phases. cbv zeta. fold i.
  destruct (init_summary (in_init input)) as (R & _ & _ & _ & _ & _ & T & _).
  cbv zeta in R, T. fold i in R, T.
  set (g1 := if negb (result_of i =? 0)
             then with_terminationRequired true (globals_of i) else globals_of i).
  assert (Hg1 : terminationRequired g1 = true).
  { subst g1. rewrite R. destruct (init_ok (in_init input)); simpl.
    - destruct Hcase as [H|H]; [discriminate|]. now rewrite T.
    - reflexivity. }
  assert (Hfds : same_fds (globals_of i) g1).
  { subst g1. destruct (negb (result_of i =? 0)); now repeat split. }
  assert (Htd : forall env,
            events_of (ClosePeripheralsAndHandlers env g1) =
            events_of (ClosePeripheralsAndHandlers env (globals_of i))).
  { intros env. rewrite !ClosePeripheralsAndHandlers_run, !events_of_triple.
    unfold teardown_closes.
    destruct Hfds as (-> & -> & -> & -> & -> & _). reflexivity. }
  rewrite dispatch_loop_exit by exact Hg1.
  rewrite result_of_triple, globals_of_triple, events_of_triple.
  rewrite result_of_triple, globals_of_triple, events_of_triple, Htd.
  repeat split; apply Hfds.
Qed.

Lemma teardown_writes env g :
  written_levels (events_of (ClosePeripheralsAndHandlers env g)) =
  if 0 <=? blinkingLedGpioFd g then [GPIO_Value_High] else [].
Proof.
  rewrite ClosePeripheralsAndHandlers_run, events_of_triple, written_levels_app.
  change (written_levels (EvLog_Debug ?m :: ?r)) with (written_levels r).
  rewrite teardown_closes_no_write, app_nil_r.
  now destruct (0 <=? blinkingLedGpioFd g).
Qed.

(** X8: a SIGTERM that arrives while initialisation is under way does
    not cut it short.  If every acquisition succeeds, all six descriptors
    are opened; [main] then makes no wait at all, writes the safe level
    once, closes the five descriptors teardown visits and returns 0. *)
Theorem sigterm_during_init (input : Input) :
  init_ok (in_init input) = true ->
  init_sigterm (in_init input) = true ->
  let env := in_init input in
  let out := run_main input in
  result_of out = Some 0 /\
  wait_calls (events_of out) = 0%nat /\
  press_events (events_of out) = 0%nat /\
  written_levels (events_of out) = [GPIO_Value_High] /\
  opened_fds (events_of out) =
    [init_epoll env; init_buttonGpio env; init_buttonTimer env;
     init_ledGpio env; init_ledTimer env; init_i2c env] /\
  closed_fds (events_of out) =
    [init_ledTimer env; init_ledGpio env; init_buttonTimer env;
     init_buttonGpio env; init_epoll env].
Proof.
  intros Hok Hsig env out.
  destruct (run_without_loop input (or_intror Hsig)) as (Hres & _ & Hev).
  destruct (exit_after_successful_init input Hok Hres) as (_ & Ho & Hc & _).
  cbv zeta in Ho, Hc. fold env in Ho, Hc. fold out in Ho, Hc, Hres, Hev.
  destruct (init_summary (in_init input)) as (_ & _ & _ & Wi & Pi & _).
  destruct (init_levels (in_init input)) as (_ & _ & Wr & Hled & _).
  cbv zeta in Wi, Pi, Wr, Hled.
  destruct (teardown_summary (in_teardown input)
              (globals_of (InitPeripheralsAndHandlers (in_init input) initial_globals)))
    as (_ & _ & Wt & Pt & _).
  cbv zeta in Wt, Pt.
  split; [exact Hres|]. rewrite Hev.
  change (wait_calls (EvLog_Debug ?m :: ?r)) with (wait_calls r).
  change (press_events (EvLog_Debug ?m :: ?r)) with (press_events r).
  change (written_levels (EvLog_Debug ?m :: ?r)) with (written_levels r).
  rewrite !wait_calls_app, !press_events_app, !written_levels_app.
  rewrite Wi, Wt, Pi, Pt, Wr, teardown_writes, Hled.
  assert (Hl : led_opened (in_init input) = true).
  { unfold init_ok in Hok. unfold led_opened.
    apply andb_prop in Hok. destruct Hok as [Hok _].
    apply andb_prop in Hok. destruct Hok as [Hok _]. exact Hok. }
  rewrite Hl. rewrite <- Hev. repeat split; assumption.
Qed.

Lemma sigterm_during_init_witness :
  let out := run_main (mk_Input (mk_InitEnv true 3 4 5 6 7 8)
                         [pass [blink]; pass four_presses] sample_teardown) in
  result_of out = Some 0 /\
  wait_calls (events_of out) = 0%nat /\
  press_events (events_of out) = 0%nat /\
  written_levels (events_of out) = [GPIO_Value_High] /\
  opened_fds (events_of out) = [3; 4; 5; 6; 7; 8] /\
  closed_fds (events_of out) = [7; 6; 5; 4; 3].
Proof.
  apply (sigterm_during_init
           (mk_Input (mk_InitEnv true 3 4 5 6 7 8)
              [pass [blink]; pass four_presses] sample_teardown));
    reflexivity.
Defined.

(** X9: after a failed initialisation teardown writes the safe level
    exactly when the output line had been opened: one write of High if
    the first four acquisitions succeeded, and no write to any line
    otherwise. *)
Theorem failed_init_write_is_guarded (input : Input) :
  init_ok (in_init input) = false ->
  written_levels (events_of (run_main input)) =
    if led_opened (in_init input) then [GPIO_Value_High] else [].
Proof.
  intros Hbad.
  destruct (run_without_loop input (or_introl Hbad)) as (_ & _ & Hev).
  destruct (init_levels (in_init input)) as (_ & _ & Wr & Hled & _).
  cbv zeta in Wr, Hled. rewrite Hev.
  change (written_levels (EvLog_Debug ?m :: ?r)) with (written_levels r).
  rewrite !written_levels_app, Wr, teardown_writes, Hled. simpl.
  now rewrite app_nil_r.
Qed.

Lemma failed_init_write_is_guarded_witness :
  written_levels (events_of (run_main
    (mk_Input (mk_InitEnv false 3 4 5 6 (-1) 8) [pass [blink]] sample_teardown)))
    = [GPIO_Value_High] /\
  written_levels (events_of (run_main
    (mk_Input (mk_InitEnv false 3 4 (-1) 6 7 8) [pass [blink]] sample_teardown)))
    = [].
Proof.
  split.
  - apply (failed_init_write_is_guarded
             (mk_Input (mk_InitEnv false 3 4 5 6 (-1) 8) [pass [blink]]
                sample_teardown)).
    reflexivity.
  - apply (failed_init_write_is_guarded
             (mk_Input (mk_InitEnv false 3 4 (-1) 6 7 8) [pass [blink]]
                sample_teardown)).
    reflexivity.
Defined.

(** ** Which descriptor each call is made on *)

Lemma same_fds_sym g g' : same_fds g g' -> same_fds g' g.
Proof. unfold same_fds. intuition congruence. Qed.

Lemma right_target_same_fds g g' e :
  same_fds g g' -> right_target g e -> right_target g' e.
Proof.
  unfold same_fds. intros (E1 & E2 & E3 & E4 & E5 & E6).
  destruct e as [m|s|c res|fd res|fd res v|fd v res|fd p res|fd sp|c|t|fd res|fd res];
    simpl; try rewrite E1; try rewrite E2; try rewrite E3; try rewrite E4;
    try rewrite E5; try rewrite E6; exact (fun H => H).
Qed.

Lemma Forall_right_target_same_fds g g' evs :
  same_fds g g' -> Forall (right_target g) evs -> Forall (right_target g') evs.
Proof.
  intros F H. eapply Forall_impl; [|exact H].
  intros e. now apply right_target_same_fds.
Qed.

Lemma eventHandler_targets x g :
  Forall (right_target g) (events_of (eventHandler x g)).
Proof.
  destruct x as [r|r]; simpl eventHandler.
  - rewrite ButtonTimerEventHandler_run. cbv zeta.
    repeat split_if; rewrite events_of_triple; unfold press_display;
      repeat (first [apply Forall_nil | apply Forall_cons | apply Forall_app; split]);
      simpl; auto.
  - rewrite BlinkingLedTimerEventHandler_run. cbv zeta.
    repeat split_if; rewrite events_of_triple;
      repeat (first [apply Forall_nil | apply Forall_cons]); simpl; auto.
Qed.

Lemma call_handlers_targets l : forall g,
  Forall (right_target g) (events_of (call_handlers l g)).
Proof.
  induction l as [|x l IH]; intros g; [constructor|].
  rewrite call_handlers_cons_events. apply Forall_app. split.
  - apply eventHandler_targets.
  - destruct (eventHandler_steady x g) as (F & _).
    apply (Forall_right_target_same_fds _ _ _ (same_fds_sym _ _ F)).
    apply IH.
Qed.

Lemma loop_body_targets it g :
  Forall (right_target g) (events_of (loop_body it g)).
Proof.
  rewrite loop_body_run. cbv zeta.
  destruct (it_wait it) as [| |l]; rewrite events_of_triple.
  - repeat constructor.
  - repeat constructor.
  - constructor; [reflexivity|].
    destruct (it_sigterm it); [|apply call_handlers_targets].
    apply (Forall_right_target_same_fds (with_terminationRequired true g));
      [now repeat split|apply call_handlers_targets].
Qed.

Lemma dispatch_loop_targets sched : forall g,
  Forall (right_target g) (events_of (dispatch_loop sched g)).
Proof.
  induction sched as [|it rest IH]; intros g;
    destruct (terminationRequired g) eqn:Ht.
  - rewrite dispatch_loop_exit by assumption. constructor.
  - rewrite dispatch_loop_nil by assumption. constructor.
  - rewrite dispatch_loop_exit by assumption. constructor.
  - rewrite dispatch_loop_cons by assumption. cbv zeta.
    rewrite events_of_triple. apply Forall_app. split.
    + apply loop_body_targets.
    + destruct (loop_body_steady it g) as (F & _).
      apply (Forall_right_target_same_fds _ _ _ (same_fds_sym _ _ F)).
      apply IH.
Qed.





(** ** No call on a descriptor that is not open *)

Lemma opened_fds_app a b : opened_fds (a ++ b) = opened_fds a ++ opened_fds b.
Proof. unfold opened_fds. now rewrite open_results_app, filter_app. Qed.

Lemma respects_app a : forall o c b,
  respects o c (a ++ b) <->
  respects o c a /\ respects (o ++ opened_fds a) (c ++ closed_fds a) b.
Proof.
  induction a as [|e a IH]; intros o c b.
  - simpl. rewrite !app_nil_r. tauto.
  - pose proof (opened_fds_app [e] a) as E1.
    pose proof (closed_fds_app [e] a) as E2.
    change ([e] ++ a) with (e :: a) in E1, E2.
    rewrite E1, E2, !app_assoc.
    change ((e :: a) ++ b) with (e :: (a ++ b)).
    cbn [respects]. rewrite IH. tauto.
Qed.

Lemma respects_sound evs :
  respects [] [] evs ->
  forall pre e post fd,
    evs = pre ++ e :: post -> In fd (used_fds e) ->
    In fd (opened_fds pre) /\ 0 <= fd /\
    (is_close e = false -> closed_fds pre = []).
Proof.
  intros H pre e post fd -> Hin.
  apply respects_app in H. destruct H as [_ [H _]].
  destruct (H fd Hin) as [Ho Hc]. simpl in Ho, Hc.
  split; [exact Ho|]. split; [|exact Hc].
  unfold opened_fds in Ho. apply filter_In in Ho. now apply Z.leb_le.
Qed.

(** A stretch of log that opens and closes nothing, all of whose calls
    are on descriptors already open, respects them. *)
Lemma respects_quiet evs : forall o,
  open_results evs = [] -> closed_fds evs = [] ->
  Forall (fun e => forall fd, In fd (used_fds e) -> In fd o) evs ->
  respects o [] evs.
Proof.
  induction evs as [|e evs IH]; intros o Ho Hc HF; [exact I|].
  change (e :: evs) with ([e] ++ evs) in Ho, Hc.
  rewrite open_results_app in Ho. rewrite closed_fds_app in Hc.
  apply app_eq_nil in Ho. apply app_eq_nil in Hc.
  destruct Ho as [Ho1 Ho2]. destruct Hc as [Hc1 Hc2].
  inversion HF as [|? ? He Hrest]; subst.
  cbn [respects]. unfold opened_fds. rewrite Ho1, Hc1. cbn [filter app].
  rewrite app_nil_r.
  split; [|now apply IH].
  intros fd Hin. split; [now apply He|reflexivity].
Qed.

Lemma uses_of_right_target g e :
  right_target g e -> forall x, In x (used_fds e) -> In x (descriptors g).
Proof.
  unfold descriptors.
  destruct e as [m|s|c res|fd' res|fd' res v|fd' v res|fd' p res|fd' sp|c|t|fd' res|fd' res];
    simpl; try (intros _ x H; solve [destruct H]).
  - destruct c as [|q|epfd period ed ev|q md v|q]; simpl; try (intros _ x H; solve [destruct H]).
    destruct ed; intros [E _] x [<-|[]]; rewrite E; auto.
  - intros [E|E] x [<-|[]]; rewrite E; auto 7.
  - intros E x [<-|[]]; rewrite E; auto.
  - intros E x [<-|[]]; rewrite E; auto 7.
  - intros E x [<-|[]]; rewrite E; auto 7.
  - intros E x [<-|[]]; rewrite E; auto 7.
  - destruct c; simpl; try (intros _ x H; solve [destruct H]).
    intros E x [<-|[]]; rewrite E; auto 7.
  - intros E x [<-|[]]; rewrite E; auto.
  - intros H x [<-|[]]. simpl in H. intuition.
Qed.

Lemma init_respects env :
  let out := InitPeripheralsAndHandlers env initial_globals in
  respects [] [] (events_of out) /\
  (init_ok env = true -> created (globals_of out) = descriptors (globals_of out)).
Proof.
  destruct env as [sg e b p l t i]. intros out.
  remember out as o eqn:Ho. subst out.
  unfold InitPeripheralsAndHandlers in Ho; unfold_calls_in Ho.
  simpl in Ho.
  unfold init_ok, created, descriptors, opened_fds.
  destruct sg; simpl in Ho;
    repeat match type of Ho with
    | context [if ?z <? 0 then _ else _] => destruct (z <? 0) eqn:?; simpl in Ho
    end.
  all: subst o; simpl; unfold opened_fds; simpl.
  all: repeat match goal with
       | H : (_ <? 0) = false |- _ => apply not_negative in H
       | H : (_ <? 0) = true |- _ => apply negative in H
       end.
  all: repeat match goal with H : (0 <=? _) = _ |- _ => rewrite H end; simpl.
  all: repeat split; try reflexivity; try discriminate; try contradiction.
  all: try (intros; simpl in *; intuition (subst; auto 7)).
Qed.

Lemma dispatch_loop_respects sched g o :
  (forall x, In x (descriptors g) -> In x o) ->
  respects o [] (events_of (dispatch_loop sched g)).
Proof.
  intros Hsub.
  destruct (dispatch_loop_steady sched g) as (_ & Lo & Lc & _).
  apply respects_quiet; [exact Lo|exact Lc|].
  eapply Forall_impl; [|apply dispatch_loop_targets].
  intros e He x Hx. apply Hsub. exact (uses_of_right_target g e He x Hx).
Qed.

Lemma close_log_respects o c fd res :
  (0 <= fd -> In fd o) -> respects o c (close_log fd res).
Proof.
  intros H. unfold close_log. destruct (0 <=? fd) eqn:Hfd; [|exact I].
  apply Z.leb_le in Hfd.
  assert (Hclose : forall x, In x [fd] -> In x o /\ (true = false -> c = [])).
  { intros x [<-|[]]. split; [auto|discriminate]. }
  destruct (negb (res =? 0)); cbn [respects used_fds is_close].
  - split; [exact Hclose|]. split; [intros x []|exact I].
  - split; [exact Hclose|exact I].
Qed.

Lemma visited_created g x :
  In x [blinkingLedTimerFd g; blinkingLedGpioFd g; buttonPollTimerFd g;
        ledBlinkRateButtonGpioFd g; epollFd g] ->
  0 <= x -> In x (created g).
Proof.
  intros Hin Hx. unfold created. apply filter_In. split.
  - simpl in *. intuition.
  - now apply Z.leb_le.
Qed.

Lemma teardown_respects env g o :
  (forall x, In x (created g) -> In x o) ->
  respects o []
    (events_of (ClosePeripheralsAndHandlers env g) ++
     [EvLog_Debug "Application exiting.\n"]).
Proof.
  intros Hsub.
  assert (Hfd : forall o' x,
            In x [blinkingLedTimerFd g; blinkingLedGpioFd g; buttonPollTimerFd g;
                  ledBlinkRateButtonGpioFd g; epollFd g] ->
            0 <= x -> In x (o ++ o')).
  { intros o' x Hin Hx. apply in_or_app. left. apply Hsub.
    now apply visited_created. }
  rewrite ClosePeripheralsAndHandlers_run, events_of_triple.
  apply respects_app. split; [apply respects_app; split|].
  - destruct (0 <=? blinkingLedGpioFd g) eqn:Hl; [|exact I].
    apply Z.leb_le in Hl. cbn [respects used_fds is_close].
    split; [|exact I]. intros x [<-|[]]. split; [|reflexivity].
    rewrite <- (app_nil_r o). apply Hfd; simpl; auto.
  - cbn [respects used_fds]. split; [intros x []|].
    unfold teardown_closes.
    apply respects_app; split;
      [|apply respects_app; split;
        [|apply respects_app; split; [|apply respects_app; split]]].
    all: apply close_log_respects; intros Hx.
    all: repeat rewrite <- app_assoc; apply Hfd; simpl; auto 6.
  - cbn [respects used_fds]. split; [intros x []|exact I].
Qed.

(** X11: no call is ever made on a descriptor that is not open.  At every
    call of a run, the descriptor it is made on is non-negative and was
    returned earlier in the run by an acquisition that succeeded; and
    unless the call is a close, nothing has been closed before it. *)
Theorem descriptors_are_open_when_used
    (input : Input) (pre post : list Event) (e : Event) (fd : Z) :
  events_of (run_main input) = pre ++ e :: post ->
  In fd (used_fds e) ->
  In fd (opened_fds pre) /\ 0 <= fd /\
  (is_close e = false -> closed_fds pre = []).
Proof.
  apply respects_sound.
  rewrite run_main_phases. cbv zeta.
  set (i := InitPeripheralsAndHandlers (in_init input) initial_globals).
  set (g1 := if negb (result_of i =? 0)
             then with_terminationRequired true (globals_of i) else globals_of i).
  set (lp := dispatch_loop (in_schedule input) g1).
  destruct (init_summary (in_init input)) as (R & Op & Cl & _).
  destruct (init_respects (in_init input)) as (Hi & Hall).
  cbv zeta in R, Op, Cl, Hi, Hall. fold i in R, Op, Cl, Hi, Hall.
  assert (F1 : same_fds (globals_of i) g1)
    by (subst g1; destruct (negb (result_of i =? 0)); now repeat split).
  destruct (dispatch_loop_steady (in_schedule input) g1) as (F2 & Lo & Lc & _).
  cbv zeta in F2, Lo, Lc. fold lp in F2, Lo, Lc.
  destruct (same_fds_lists _ _ (same_fds_trans _ _ _ F1 F2)) as [Hcr _].
  assert (Hloop : respects (opened_fds (events_of i)) [] (events_of lp)).
  { destruct (terminationRequired g1) eqn:Ht.
    - subst lp. rewrite dispatch_loop_exit by exact Ht. exact I.
    - assert (Hok : init_ok (in_init input) = true).
      { destruct (init_ok (in_init input)); [reflexivity|].
        subst g1. rewrite R in Ht. discriminate Ht. }
      apply dispatch_loop_respects. intros x Hx.
      rewrite Op, (Hall Hok).
      unfold descriptors in *. destruct F1 as (E1 & E2 & E3 & E4 & E5 & E6).
      now rewrite <- E1, <- E2, <- E3, <- E4, <- E5, <- E6. }
  assert (Hstart : respects [] []
            (EvLog_Debug "Blink application starting.\n"
               :: events_of i ++ events_of lp)).
  { cbn [respects used_fds]. split; [intros x []|].
    change (opened_fds [EvLog_Debug ?m]) with (@nil Z).
    change (closed_fds [EvLog_Debug ?m]) with (@nil Z).
    cbn [app].
    apply respects_app. split; [exact Hi|].
    cbn [app]. rewrite Cl. exact Hloop. }
  destruct (result_of lp); rewrite events_of_triple; [|exact Hstart].
  change (EvLog_Debug "Blink application starting.\n" :: ?a ++ ?b ++ ?c)
    with ((EvLog_Debug "Blink application starting.\n" :: a) ++ b ++ c).
  rewrite app_assoc, <- app_comm_cons.
  apply respects_app. split; [exact Hstart|].
  cbn [app].
  change (closed_fds (EvLog_Debug ?m :: ?r)) with (closed_fds r).
  rewrite closed_fds_app, Cl, Lc. cbn [app].
  apply teardown_respects. intros x Hx.
  change (opened_fds (EvLog_Debug ?m :: ?r)) with (opened_fds r).
  rewrite opened_fds_app, Op. apply in_or_app. left.
  now rewrite <- Hcr.
Qed.

Lemma descriptors_are_open_when_used_witness :
  let evs := events_of (run_main (mk_Input sample_init [pass [blink]; sigterm_pass]
                                    sample_teardown)) in
  evs = firstn 19 evs ++ EvGPIO_SetValue 6 GPIO_Value_Low 0 :: skipn 20 evs /\
  In 6 (opened_fds (firstn 19 evs)) /\ 0 <= 6 /\
  closed_fds (firstn 19 evs) = [].
Proof.
  intros evs. split; [reflexivity|].
  destruct (descriptors_are_open_when_used
              (mk_Input sample_init [pass [blink]; sigterm_pass] sample_teardown)
              (firstn 19 evs) (skipn 20 evs)
              (EvGPIO_SetValue 6 GPIO_Value_Low 0) 6)
    as (H1 & H2 & H3).
  - reflexivity.
  - simpl. auto.
  - split; [exact H1|]. split; [exact H2|]. apply H3. reflexivity.
Defined.
